(* ===================================================================== *)
(* ColPali embedding endpoint: batch planning, out-of-memory recovery    *)
(* and memory reclamation of                                             *)
(*   morphik-external/scripts/colpali_modal_app.py                       *)
(*   (ColpaliModalService.generate_embeddings_endpoint, _decode_image,   *)
(*    _clear_gpu_memory)                                                 *)
(* as a shallow embedding: the endpoint is a function in a small         *)
(* state-and-exception monad over the external world (processor, model,  *)
(* device allocator), which are parameters of the development.           *)
(* ===================================================================== *)

From Stdlib Require Import String Ascii ZArith Lia.
From stdpp Require Import base list strings.

Local Open Scope string_scope.
Local Open Scope list_scope.

(* --------------------------------------------------------------------- *)
(* Python values and exceptions                                          *)
(* --------------------------------------------------------------------- *)

(* An element of payload.inputs.  The request model declares List[str];
   the endpoint still tests isinstance(text, str), so the other JSON
   scalars are kept. *)
Inductive pyval :=
| PyStr (s : string)
| PyInt (z : Z)
| PyNone.

Definition is_str (v : pyval) : bool :=
  match v with PyStr _ => true | _ => false end.

(* The exception classes the handlers of the endpoint tell apart:
   `except ValueError`, `except RuntimeError`, and every other subclass of
   Exception.  The string is str(e). *)
Inductive exn :=
| ValueError (msg : string)
| RuntimeError (msg : string)
| OtherError (msg : string).

Definition exn_msg (e : exn) : string :=
  match e with ValueError m | RuntimeError m | OtherError m => m end.

(* `needle in hay` on str *)
Fixpoint contains (needle hay : string) : bool :=
  String.prefix needle hay ||
  match hay with
  | EmptyString => false
  | String _ rest => contains needle rest
  end.

(* `"out of memory" in str(e)` *)
Definition is_oom_msg (m : string) : bool := contains "out of memory" m.

(* s.split(",", 1)[1]: the text after the first comma, IndexError (None)
   when there is no comma *)
Fixpoint after_first_comma (s : string) : option string :=
  match s with
  | EmptyString => None
  | String c rest =>
      if Ascii.eqb c "," then Some rest else after_first_comma rest
  end.

(* --------------------------------------------------------------------- *)
(* Batch planning: for i in range(0, len(xs), bs): xs[i:i + bs]          *)
(* --------------------------------------------------------------------- *)

(* batch_size = 4 if input_type == "text" else 1 *)
Definition batch_size (input_type : string) : nat :=
  if String.eqb input_type "text" then 4 else 1.

(* the values of range(0, n, step), step > 0 *)
Definition py_range_step (n step : nat) : list nat :=
  map (fun k => k * step) (seq 0 ((n + step - 1) / step)).

(* xs[i:j] for 0 <= i <= j; out-of-range bounds are clamped *)
Definition py_slice {A} (xs : list A) (i j : nat) : list A :=
  firstn (j - i) (skipn i xs).

Definition batches {A} (bs : nat) (xs : list A) : list (list A) :=
  map (fun i => py_slice xs i (i + bs)) (py_range_step (length xs) bs).

Definition plan {A} (input_type : string) (xs : list A) : list (list A) :=
  batches (batch_size input_type) xs.

(* --------------------------------------------------------------------- *)
(* Responses                                                             *)
(* --------------------------------------------------------------------- *)

Inductive response (Embedding : Type) :=
| Ok200 (embeddings : list Embedding)      (* {"embeddings": [...]} *)
| Err400 (error : string)                  (* JSONResponse(..., 400) *)
| Err500 (error : string).                 (* JSONResponse(..., 500) *)
Arguments Ok200 {Embedding} _.
Arguments Err400 {Embedding} _.
Arguments Err500 {Embedding} _.

(* --------------------------------------------------------------------- *)
(* The external world                                                    *)
(* --------------------------------------------------------------------- *)

(* What the endpoint consumes and does not define: the base64 codec and
   the image library (pure), the ColQwen processor and model and the CUDA
   allocator (stateful: the outcome of a call may depend on everything
   that happened before, which is what `World` stands for).
   - process_images / process_queries include the trailing
     `.to(self.device)`;
   - model is the call of self.model on the unpacked batch under
     torch.no_grad(), followed by
     `.to(torch.float32).cpu().numpy().tolist()`: one embedding per row;
   - truthy is the truth value of the processed batch in
     `if processed_batch:`;
   - empty_cache_gc is the body of _clear_gpu_memory:
     torch.cuda.empty_cache() when CUDA is available, then gc.collect(). *)
Record externals (World Image Processed Embedding : Type) := {
  b64decode : string -> string + list Byte.byte;
  open_image : list Byte.byte -> string + Image;
  process_images : list Image -> World -> (exn + Processed) * World;
  process_queries : list pyval -> World -> (exn + Processed) * World;
  truthy : Processed -> bool;
  model : Processed -> World -> (exn + list Embedding) * World;
  empty_cache_gc : World -> World
}.
Arguments b64decode {World Image Processed Embedding} _ _.
Arguments open_image {World Image Processed Embedding} _ _.
Arguments process_images {World Image Processed Embedding} _ _ _.
Arguments process_queries {World Image Processed Embedding} _ _ _.
Arguments truthy {World Image Processed Embedding} _ _.
Arguments model {World Image Processed Embedding} _ _ _.
Arguments empty_cache_gc {World Image Processed Embedding} _ _.

(* The calls the endpoint makes on the processor, the model and the
   allocator, in the order it makes them. *)
Inductive event (Image Processed Embedding : Type) :=
| EvReclaim                                         (* _clear_gpu_memory() *)
| EvProcessImages (imgs : list Image)
| EvProcessQueries (qs : list pyval)
| EvModel (p : Processed) (r : exn + list Embedding).
Arguments EvReclaim {Image Processed Embedding}.
Arguments EvProcessImages {Image Processed Embedding} _.
Arguments EvProcessQueries {Image Processed Embedding} _.
Arguments EvModel {Image Processed Embedding} _ _.

(* The state of one request: the world, the calls made so far, and
   all_embeddings_list. *)
Record state (World Image Processed Embedding : Type) := mkState {
  world : World;
  log : list (event Image Processed Embedding);
  acc : list Embedding
}.
Arguments mkState {World Image Processed Embedding} _ _ _.
Arguments world {World Image Processed Embedding} _.
Arguments log {World Image Processed Embedding} _.
Arguments acc {World Image Processed Embedding} _.

(* --------------------------------------------------------------------- *)
(* State and exceptions                                                  *)
(* --------------------------------------------------------------------- *)

Definition M (S A : Type) : Type := S -> (exn + A) * S.

Definition ret {S A} (a : A) : M S A := fun s => (inr a, s).

Definition raise {S A} (e : exn) : M S A := fun s => (inl e, s).

Definition bind {S A B} (c : M S A) (k : A -> M S B) : M S B :=
  fun s =>
    match c s with
    | (inr a, s') => k a s'
    | (inl e, s') => (inl e, s')
    end.

(* try: c  except <class> as e: h e.  The handler decides itself which
   classes it takes; it re-raises the others.  What c did to the state
   before it raised stays done. *)
Definition try_except {S A} (c : M S A) (h : exn -> M S A) : M S A :=
  fun s =>
    match c s with
    | (inr a, s') => (inr a, s')
    | (inl e, s') => h e s'
    end.

Notation "x <- c ;; k" := (bind c (fun x => k))
  (at level 100, c at next level, right associativity).
Notation "c ;;; k" := (bind c (fun _ => k))
  (at level 100, right associativity).

(* [f(x) for x in xs] where f may raise: left to right, stops at the
   first exception *)
Fixpoint list_comprehension {A B} (f : A -> exn + B) (xs : list A)
  : exn + list B :=
  match xs with
  | [] => inr []
  | x :: rest =>
      match f x with
      | inl e => inl e
      | inr y =>
          match list_comprehension f rest with
          | inl e => inl e
          | inr ys => inr (y :: ys)
          end
      end
  end.

Definition lift {S A} (r : exn + A) : M S A := fun s => (r, s).

(* --------------------------------------------------------------------- *)
(* ColpaliModalService                                                   *)
(* --------------------------------------------------------------------- *)

(* The embedding follows the control flow of the file: the early
   returns, the two nested try blocks and their handlers, the loop over
   the batches and the loop of the fallback.  The statements of lines
   160-163 have lost one level of indentation in the file; they are the
   first statements of the try block opened on line 159, whose body goes
   on at line 165 and whose handler is on line 174.
   Left out, as they only print: the print calls and the reads of
   torch.cuda.memory_allocated / memory_reserved.  The `del` statements
   only drop local names.  _clear_gpu_memory is taken not to raise. *)

Section Service.
Context {World Image Processed Embedding : Type}.
Variable ext : externals World Image Processed Embedding.

Abbreviation St := (state World Image Processed Embedding).
Abbreviation Ev := (event Image Processed Embedding).
Abbreviation Resp := (response Embedding).

Definition emit (ev : Ev) (w : World) (s : St) : St :=
  mkState w (log s ++ [ev]) (acc s).

(* _decode_image.  A value without startswith (anything but a str)
   raises AttributeError at the first line. *)
Definition _decode_image (v : pyval) : exn + Image :=
  match v with
  | PyStr base64_string =>
      let stripped :=
        if String.prefix "data:" base64_string then
          match after_first_comma base64_string with
          | Some rest => inr rest
          | None =>
              inl (ValueError "Malformed data URI string for image decoding.")
          end
        else inr base64_string in
      match stripped with
      | inl e => inl e
      | inr b64 =>
          match b64decode ext b64 with
          | inl msg =>
              inl (ValueError ("Failed to decode base64 image: " +:+ msg))
          | inr image_bytes =>
              match open_image ext image_bytes with
              | inl msg =>
                  inl (ValueError ("Failed to decode base64 image: " +:+ msg))
              | inr img => inr img
              end
          end
      end
  | _ => inl (OtherError "object has no attribute 'startswith'")
  end.

(* _clear_gpu_memory *)
Definition _clear_gpu_memory : M St unit :=
  fun s => (inr tt, emit EvReclaim (empty_cache_gc ext (world s)) s).

Definition call_process_images (imgs : list Image) : M St Processed :=
  fun s =>
    let '(r, w) := process_images ext imgs (world s) in
    (r, emit (EvProcessImages imgs) w s).

Definition call_process_queries (qs : list pyval) : M St Processed :=
  fun s =>
    let '(r, w) := process_queries ext qs (world s) in
    (r, emit (EvProcessQueries qs) w s).

Definition call_model (p : Processed) : M St (list Embedding) :=
  fun s =>
    let '(r, w) := model ext p (world s) in
    (r, emit (EvModel p r) w s).

(* all_embeddings_list.extend(vs) *)
Definition extend (vs : list Embedding) : M St unit :=
  fun s => (inr tt, mkState (world s) (log s) (acc s ++ vs)).

(* Lines 183-191: one item of the fallback, up to its embedding. *)
Definition infer_single (input_type : string) (single_item : pyval)
  : M St (list Embedding) :=
  single_processed <-
    (if String.eqb input_type "image" then
       img <- lift (_decode_image single_item) ;;
       call_process_images [img]
     else call_process_queries [single_item]) ;;
  call_model single_processed.

(* Lines 182-200: the body of `for single_item in batch_input_data`.
   `except Exception` takes every exception; its handler prints and
   continues. *)
Definition fallback_item (input_type : string) (single_item : pyval)
  : M St unit :=
  try_except
    (single_embedding_np <- infer_single input_type single_item ;;
     extend single_embedding_np ;;;
     _clear_gpu_memory)
    (fun single_e => ret tt).

Fixpoint fallback (input_type : string) (batch_input_data : list pyval)
  : M St unit :=
  match batch_input_data with
  | [] => ret tt
  | single_item :: rest =>
      fallback_item input_type single_item ;;; fallback input_type rest
  end.

(* Lines 174-204: `except RuntimeError as e` around the batch. *)
Definition on_batch_error (input_type : string)
    (batch_input_data : list pyval) (e : exn) : M St unit :=
  match e with
  | RuntimeError msg =>
      if is_oom_msg msg then
        _clear_gpu_memory ;;;
        (if Nat.ltb 1 (length batch_input_data)
         then fallback input_type batch_input_data
         else raise e)
      else raise e
  | _ => raise e
  end.

(* Lines 158-204: `if processed_batch:` with its try block. *)
Definition infer_batch (input_type : string)
    (batch_input_data : list pyval) (processed_batch : Processed)
  : M St unit :=
  if truthy ext processed_batch then
    try_except
      (current_batch_embeddings_np <- call_model processed_batch ;;
       extend current_batch_embeddings_np ;;;
       _clear_gpu_memory)
      (on_batch_error input_type batch_input_data)
  else ret tt.

(* Lines 142-204: the body of the loop over the batches.  None is the
   end of the iteration (or `continue`), Some r is `return r`. *)
Definition process_batch (input_type : string)
    (batch_input_data : list pyval) : M St (option Resp) :=
  if String.eqb input_type "image" then
    pil_images <- lift (list_comprehension _decode_image batch_input_data) ;;
    match pil_images with
    | [] => ret None
    | _ =>
        processed_batch <- call_process_images pil_images ;;
        infer_batch input_type batch_input_data processed_batch ;;;
        ret None
    end
  else if String.eqb input_type "text" then
    if forallb is_str batch_input_data then
      processed_batch <- call_process_queries batch_input_data ;;
      infer_batch input_type batch_input_data processed_batch ;;;
      ret None
    else ret (Some (Err400 "Invalid text inputs, not all are strings"))
  else ret (Some (Err400 "Invalid input_type")).

Fixpoint run_batches (input_type : string) (bs : list (list pyval))
  : M St (option Resp) :=
  match bs with
  | [] => ret None
  | batch_input_data :: rest =>
      r <- process_batch input_type batch_input_data ;;
      match r with
      | Some resp => ret (Some resp)
      | None => run_batches input_type rest
      end
  end.

Definition init (w : World) : St := mkState w [] [].

(* Lines 206-217: the handlers of the outer try, the final cleanup and
   the success response. *)
Definition respond (outcome : (exn + option Resp) * St) : Resp * St :=
  match outcome with
  | (inr (Some resp), s) => (resp, s)
  | (inr None, s) =>
      let s' := snd (_clear_gpu_memory s) in
      (Ok200 (acc s'), s')
  | (inl (ValueError ve), s) =>
      (Err400 ("Input processing error: " +:+ ve), s)
  | (inl _, s) =>
      (Err500 "Internal server error during embedding",
       snd (_clear_gpu_memory s))
  end.

Definition generate_embeddings_endpoint (input_type : string)
    (inputs_data : list pyval) (w : World) : Resp * St :=
  match inputs_data with
  | [] => (Ok200 [], init w)
  | _ => respond (run_batches input_type (plan input_type inputs_data) (init w))
  end.
(* Observations on the calls of a request. *)
Definition is_reclaim (ev : Ev) : bool :=
  match ev with EvReclaim => true | _ => false end.

Definition is_processor_call (ev : Ev) : bool :=
  match ev with EvProcessImages _ | EvProcessQueries _ => true | _ => false end.

Definition processor_calls (l : list Ev) : list Ev :=
  List.filter is_processor_call l.

(* the embeddings returned by the model calls that succeeded, in order *)
Definition model_outputs (l : list Ev) : list Embedding :=
  flat_map (fun ev => match ev with EvModel _ (inr vs) => vs | _ => [] end) l.

(* The processor calls of an item-by-item pass over a batch: one call on
   a one-element list per item, in the order of the batch (for an image,
   when the item decodes). *)
Definition singleton_calls (input_type : string) (batch : list pyval)
  : list Ev :=
  if String.eqb input_type "image" then
    flat_map (fun x => match _decode_image x with
                       | inr img => [EvProcessImages [img]]
                       | inl _ => []
                       end) batch
  else map (fun x => EvProcessQueries [x]) batch.

(* The contract of the processor and model pair for one input type: a
   model call that succeeds on the processed form of a list of items
   returns one embedding per item, emb of the item, in the order of the
   list. *)
Definition pointwise (input_type : string) (emb : pyval -> Embedding) : Prop :=
  if String.eqb input_type "image" then
    forall items imgs w p w' r w'',
      list_comprehension _decode_image items = inr imgs ->
      process_images ext imgs w = (inr p, w') ->
      model ext p w' = (inr r, w'') ->
      r = map emb items
  else
    forall items w p w' r w'',
      process_queries ext items w = (inr p, w') ->
      model ext p w' = (inr r, w'') ->
      r = map emb items.
End Service.

(* --------------------------------------------------------------------- *)
(* A scripted world, to run the endpoint on concrete requests            *)
(* --------------------------------------------------------------------- *)

Module Scripted.

(* The world is the list of the outcomes of the coming model calls:
   None for a call that succeeds, Some e for a call that raises e; when
   the script is over every call succeeds.  The processor keeps the items
   as they are and the model returns one embedding per item, the item
   itself.  The codec takes every string without '!' and is the identity
   on it; an image is its payload. *)
Definition World := list (option exn).
Definition Image := string.
Definition Processed := list pyval.
Definition Embedding := pyval.

Definition scripted_model (p : Processed) (w : World)
  : (exn + list Embedding) * World :=
  match w with
  | [] => (inr p, [])
  | None :: w' => (inr p, w')
  | Some e :: w' => (inl e, w')
  end.

Definition ext : externals World Image Processed Embedding := {|
  b64decode := fun s =>
    if contains "!" s then inl "Invalid base64-encoded string"
    else inr (list_byte_of_string s);
  open_image := fun b => inr (string_of_list_byte b);
  process_images := fun imgs w => (inr (map PyStr imgs), w);
  process_queries := fun qs w => (inr qs, w);
  truthy := fun p => match p with [] => false | _ => true end;
  model := scripted_model;
  empty_cache_gc := fun w => w
|}.

Definition oom : exn :=
  RuntimeError "CUDA out of memory. Tried to allocate 2.00 GiB".

Definition boom : exn := RuntimeError "CUDA error: device-side assert triggered".

Definition run (input_type : string) (inputs : list pyval) (w : World) :=
  generate_embeddings_endpoint ext input_type inputs w.

(* The embedding the scripted model gives an item of an image request:
   the decoded payload. *)
Definition emb_image (v : pyval) : Embedding :=
  match _decode_image ext v with
  | inr img => PyStr img
  | inl _ => v
  end.

(* The state of a request right after the processor returned the batch
   `items` as its first call, the model calls to come following script w. *)
Definition processed (items : list pyval) (w : World)
  : state World Image Processed Embedding :=
  mkState w [EvProcessQueries items] [].

(* The same request right after its first model call raised e. *)
Definition failed (items : list pyval) (e : exn) (w : World)
  : state World Image Processed Embedding :=
  mkState w [EvProcessQueries items; EvModel items (inl e)] [].

End Scripted.

(* --------------------------------------------------------------------- *)
(* Contracts of the processor on the batches of a request                *)
(* --------------------------------------------------------------------- *)

Section Contracts.
Context {World Image Processed Embedding : Type}.
Variable ext : externals World Image Processed Embedding.

(* What the processor returns for a list that is not empty is true in
   `if processed_batch:` (a BatchFeature that holds its tensors). *)
Definition truthy_batches : Prop :=
  (forall imgs w p w',
      imgs <> [] -> process_images ext imgs w = (inr p, w') ->
      truthy ext p = true) /\
  (forall qs w p w',
      qs <> [] -> process_queries ext qs w = (inr p, w') ->
      truthy ext p = true).

(* A device on which the calls of a text request succeed. *)
Definition healthy_text : Prop :=
  forall qs w,
    exists p w',
      process_queries ext qs w = (inr p, w') /\
      truthy ext p = true /\
      exists vs w'', model ext p w' = (inr vs, w'').
End Contracts.

(* --------------------------------------------------------------------- *)
(* The item-by-item recovery, call by call                               *)
(* --------------------------------------------------------------------- *)

Section SingletonPass.
Context {World Image Processed Embedding : Type}.
Variable ext : externals World Image Processed Embedding.

(* Lines 183-187: the processed form of one item taken alone, an image
   decoded first. *)
Definition single_processed (input_type : string) (single_item : pyval)
  : M (state World Image Processed Embedding) Processed :=
  if String.eqb input_type "image" then
    img <- lift (_decode_image ext single_item) ;;
    call_process_images ext [img]
  else call_process_queries ext [single_item].

End SingletonPass.

(* A world in which nothing fails, to run the endpoint on a device with
   memory to spare: the world counts the model calls. *)
Module Healthy.

Definition World := nat.

Definition ext
  : externals World Scripted.Image Scripted.Processed Scripted.Embedding := {|
  b64decode := b64decode Scripted.ext;
  open_image := open_image Scripted.ext;
  process_images := fun imgs w => (inr (map PyStr imgs), w);
  process_queries := fun qs w => (inr qs, w);
  truthy := fun _ => true;
  model := fun p w => (inr p, S w);
  empty_cache_gc := fun w => w
|}.

End Healthy.

(* A world in which the encoding step can fail: the world is the list of
   the outcomes of the coming processor calls (None for a call that
   succeeds, Some e for one that raises e, every call succeeding when the
   script is over); the model never fails. *)
Module Encoding.

Definition World := list (option exn).

Definition scripted_processor {A : Type} (f : A -> Scripted.Processed)
    (items : A) (w : World) : (exn + Scripted.Processed) * World :=
  match w with
  | [] => (inr (f items), [])
  | None :: w' => (inr (f items), w')
  | Some e :: w' => (inl e, w')
  end.

Definition ext
  : externals World Scripted.Image Scripted.Processed Scripted.Embedding := {|
  b64decode := b64decode Scripted.ext;
  open_image := open_image Scripted.ext;
  process_images := scripted_processor (map PyStr);
  process_queries := scripted_processor (fun qs => qs);
  truthy := truthy Scripted.ext;
  model := fun p w => (inr p, w);
  empty_cache_gc := fun w => w
|}.

End Encoding.

(* --------------------------------------------------------------------- *)
(* scripts/generate-secrets.py                                           *)
(* --------------------------------------------------------------------- *)

(* string.ascii_letters and string.digits *)
Definition ascii_letters : string :=
  "abcdefghijklmnopqrstuvwxyzABCDEFGHIJKLMNOPQRSTUVWXYZ".

Definition digits : string := "0123456789".

(* str.isalnum on one ASCII character *)
Definition is_alnum (c : ascii) : bool :=
  let n := nat_of_ascii c in
  (Nat.leb 48 n && Nat.leb n 57) ||
  (Nat.leb 65 n && Nat.leb n 90) ||
  (Nat.leb 97 n && Nat.leb n 122).


Definition all_chars (f : ascii -> bool) (s : string) : bool :=
  forallb f (list_ascii_of_string s).



Section Secrets.
Context {Rng : Type}.

(* The system random source, the state of which is Rng:
   randbelow n is SystemRandom()._randbelow(n) and urandom n is
   os.urandom(n). *)
Variable randbelow : nat -> Rng -> nat * Rng.
Variable urandom : nat -> Rng -> list Byte.byte * Rng.

(* secrets.choice(seq): seq[randbelow(len(seq))], IndexError on an
   empty sequence *)
Definition choice (seq : string) : M Rng ascii :=
  fun g =>
    match String.length seq with
    | 0 => (inl (OtherError "Cannot choose from an empty sequence"), g)
    | n =>
        let '(i, g') := randbelow n g in
        match String.get i seq with
        | Some c => (inr c, g')
        | None => (inl (OtherError "string index out of range"), g')
        end
    end.

(* ''.join(draw() for _ in range(n)) *)
Fixpoint join_draws (n : nat) (draw : M Rng ascii) : M Rng string :=
  match n with
  | 0 => ret ""
  | S n' =>
      c <- draw ;;
      rest <- join_draws n' draw ;;
      ret (String c rest)
  end.

(* generate_secret(length=64); range(length) is empty for length <= 0 *)
Definition generate_secret (length : Z) : M Rng string :=
  let alphabet := ascii_letters +:+ digits in
  join_draws (Z.to_nat length) (choice alphabet).


End Secrets.

(* A counter as random source: the n-th draw below k is n mod k, the
   bytes drawn are zeros. *)
Module Counter.

Definition randbelow (k : nat) (g : nat) : nat * nat := (g mod k, S g).


End Counter.

(* ===================================================================== *)
(* Properties                                                            *)
(* ===================================================================== *)

(* --------------------------------------------------------------------- *)
(* Lemmas on the batch plan                                              *)
(* --------------------------------------------------------------------- *)

Section Batches.
Context {A : Type}.
Implicit Types xs : list A.

(* The plan unrolls one window at a time. *)
Lemma seq_shift_map (f : nat -> list A) (a n : nat) :
  map f (seq (S a) n) = map (fun k => f (S k)) (seq a n).
Proof.
  revert a. induction n as [|n IH]; intros a; simpl; [done|].
  by rewrite IH.
Qed.

Lemma batches_nil bs : batches bs (@nil A) = [].
Proof.
  unfold batches, py_range_step.
  assert (Hq : (length (@nil A) + bs - 1) / bs = 0).
  { destruct bs as [|bs]; [reflexivity|]. apply Nat.div_small. simpl. lia. }
  by rewrite Hq.
Qed.

Lemma windows_count n bs :
  0 < bs -> 0 < n -> (n + bs - 1) / bs = S ((n - bs + bs - 1) / bs).
Proof.
  intros Hbs Hn.
  destruct (Nat.le_gt_cases bs n) as [Hle|Hlt].
  - replace (n + bs - 1) with ((n - bs + bs - 1) + 1 * bs) by lia.
    rewrite Nat.div_add by lia. lia.
  - replace (n - bs + bs - 1) with (bs - 1) by lia.
    rewrite (Nat.div_small (bs - 1)) by lia.
    assert (Hq : (n + bs - 1) / bs = 1); [|lia].
    replace (n + bs - 1) with ((n - 1) + 1 * bs) by lia.
    rewrite Nat.div_add by lia.
    rewrite Nat.div_small by lia. done.
Qed.

Lemma batches_cons bs xs :
  0 < bs -> xs <> [] ->
  batches bs xs = firstn bs xs :: batches bs (skipn bs xs).
Proof.
  intros Hbs Hne.
  assert (Hlen : 0 < length xs) by (destruct xs; simpl; [done|lia]).
  unfold batches, py_range_step.
  rewrite length_skipn.
  rewrite (windows_count (length xs) bs Hbs Hlen).
  rewrite !map_map. simpl seq. simpl map.
  f_equal.
  - unfold py_slice. simpl. by replace (bs - 0) with bs by lia.
  - rewrite seq_shift_map.
    apply map_ext. intros k. unfold py_slice.
    rewrite skipn_skipn.
    f_equal; [lia|]. f_equal. lia.
Qed.

(* Well-founded induction on the plan: nothing, or a first window and
   the plan of the rest. *)
Lemma batches_ind bs (P : list A -> Prop) :
  0 < bs ->
  P [] ->
  (forall xs, xs <> [] -> P (skipn bs xs) -> P xs) ->
  forall xs, P xs.
Proof.
  intros Hbs Hnil Hstep xs.
  remember (length xs) as n eqn:Hn.
  revert xs Hn. induction n as [n IH] using lt_wf_ind. intros xs Hn.
  destruct xs as [|x xs']; [done|].
  apply Hstep; [done|].
  apply (IH (length (skipn bs (x :: xs')))); [|done].
  rewrite length_skipn. subst n. simpl. lia.
Qed.

Lemma batches_concat bs xs : 0 < bs -> concat (batches bs xs) = xs.
Proof.
  intros Hbs. pattern xs. apply (batches_ind bs); [done| |]; clear xs.
  - by rewrite batches_nil.
  - intros xs Hne IH. rewrite batches_cons by done. simpl. rewrite IH.
    apply firstn_skipn.
Qed.

Lemma batches_sizes bs xs :
  0 < bs -> Forall (fun b => 1 <= length b <= bs) (batches bs xs).
Proof.
  intros Hbs. pattern xs. apply (batches_ind bs); [done| |]; clear xs.
  - rewrite batches_nil. constructor.
  - intros xs Hne IH. rewrite batches_cons by done. constructor; [|done].
    rewrite length_firstn. destruct xs; [done|]. simpl. lia.
Qed.
End Batches.

Lemma batch_size_pos it : 0 < batch_size it.
Proof. unfold batch_size. destruct (String.eqb it "text"); lia. Qed.


Lemma batches_one {A} (xs : list A) : batches 1 xs = map (fun x => [x]) xs.
Proof.
  induction xs as [|x xs IH]; [apply batches_nil|].
  rewrite batches_cons by (done || lia).
  change (skipn 1 (x :: xs)) with xs. change (firstn 1 (x :: xs)) with [x].
  by rewrite IH.
Qed.

Lemma batch_size_text : batch_size "text" = 4.
Proof. reflexivity. Qed.

Lemma batch_size_other it : it <> "text" -> batch_size it = 1.
Proof.
  intros Hne. unfold batch_size.
  destruct (String.eqb_spec it "text"); [done|reflexivity].
Qed.

(** C6: the planned batches are contiguous windows of the input list, in
    order: their concatenation is the input list (no gap, no overlap, the
    original order), every window holds at least one and at most
    batch_size items, batch_size is 4 for "text" and 1 for "image" (so an
    image window holds exactly one item, and an image plan is the list of
    the one-item lists), and a text request of five items a..e plans
    exactly [a;b;c;d] and [e]. *)
Theorem C6_plan_partitions :
  (forall (input_type : string) (inputs : list pyval),
      concat (plan input_type inputs) = inputs /\
      Forall (fun b => 1 <= length b <= batch_size input_type)
             (plan input_type inputs)) /\
  batch_size "text" = 4 /\
  batch_size "image" = 1 /\
  (forall inputs : list pyval,
      plan "image" inputs = map (fun x => [x]) inputs) /\
  (forall a b c d e : pyval,
      plan "text" [a; b; c; d; e] = [[a; b; c; d]; [e]]).
Proof.
  split; [|split; [|split; [|split]]].
  - intros it inputs. split.
    + apply batches_concat, batch_size_pos.
    + apply batches_sizes, batch_size_pos.
  - reflexivity.
  - reflexivity.
  - intros inputs. apply batches_one.
  - intros a b c d e. reflexivity.
Qed.

(* --------------------------------------------------------------------- *)
(* Lemmas on the calls of the service                                    *)
(* --------------------------------------------------------------------- *)

Section ServiceFacts.
Context {World Image Processed Embedding : Type}.
Variable ext : externals World Image Processed Embedding.

Implicit Types s : state World Image Processed Embedding.
Implicit Types l : list (event Image Processed Embedding).

Lemma processor_calls_app l1 l2 :
  processor_calls (l1 ++ l2) = processor_calls l1 ++ processor_calls l2.
Proof. apply List.filter_app. Qed.

Lemma model_outputs_app l1 l2 :
  model_outputs (l1 ++ l2) = model_outputs l1 ++ model_outputs l2.
Proof. apply flat_map_app. Qed.

Lemma singleton_calls_cons it x batch :
  singleton_calls ext it (x :: batch) =
  singleton_calls ext it [x] ++ singleton_calls ext it batch.
Proof.
  unfold singleton_calls. destruct (String.eqb it "image"); simpl.
  - by rewrite app_nil_r.
  - done.
Qed.

(* One call: what it appends to the log. *)
Lemma call_model_inv p s r s1 :
  call_model ext p s = (r, s1) ->
  acc s1 = acc s /\ log s1 = log s ++ [EvModel p r] /\
  model ext p (world s) = (r, world s1).
Proof.
  unfold call_model. destruct (model ext p (world s)) as [r' w] eqn:Hm.
  intros [= <- <-]. done.
Qed.

Lemma call_process_queries_inv qs s r s1 :
  call_process_queries ext qs s = (r, s1) ->
  acc s1 = acc s /\ log s1 = log s ++ [EvProcessQueries qs] /\
  process_queries ext qs (world s) = (r, world s1).
Proof.
  unfold call_process_queries.
  destruct (process_queries ext qs (world s)) as [r' w] eqn:Hp.
  intros [= <- <-]. done.
Qed.

Lemma call_process_images_inv imgs s r s1 :
  call_process_images ext imgs s = (r, s1) ->
  acc s1 = acc s /\ log s1 = log s ++ [EvProcessImages imgs] /\
  process_images ext imgs (world s) = (r, world s1).
Proof.
  unfold call_process_images.
  destruct (process_images ext imgs (world s)) as [r' w] eqn:Hp.
  intros [= <- <-]. done.
Qed.

Lemma list_comprehension_one {A B} (f : A -> exn + B) (x : A) :
  list_comprehension f [x] =
  match f x with inl e => inl e | inr y => inr [y] end.
Proof. simpl. by destruct (f x). Qed.

(* The inference on one item of the fallback: it leaves the accumulator
   alone, calls the processor on that item only (when it gets that far),
   and never reclaims memory. *)
Lemma infer_single_inv it x s r s1 :
  infer_single ext it x s = (r, s1) ->
  acc s1 = acc s /\
  exists l,
    log s1 = log s ++ l /\
    processor_calls l = singleton_calls ext it [x] /\
    model_outputs l = match r with inr vs => vs | inl _ => [] end /\
    List.filter is_reclaim l = [].
Proof.
  unfold infer_single, singleton_calls, bind.
  destruct (String.eqb it "image").
  - unfold lift. simpl flat_map.
    destruct (_decode_image ext x) as [e|img].
    + intros [= <- <-]. split; [done|]. exists []. by rewrite app_nil_r.
    + destruct (call_process_images ext [img] s) as [[e|p] s2] eqn:Hp;
        apply call_process_images_inv in Hp as (Ha & Hl & _).
      * intros [= <- <-]. split; [done|]. by exists [EvProcessImages [img]].
      * intros Hm. apply call_model_inv in Hm as (Ha' & Hl' & _).
        split; [congruence|].
        exists [EvProcessImages [img]; EvModel p r].
        rewrite Hl', Hl, <- app_assoc. split; [done|]. split; [done|].
        split; [|done]. destruct r; simpl; [done|by rewrite app_nil_r].
  - simpl map.
    destruct (call_process_queries ext [x] s) as [[e|p] s2] eqn:Hp;
      apply call_process_queries_inv in Hp as (Ha & Hl & _).
    + intros [= <- <-]. split; [done|]. by exists [EvProcessQueries [x]].
    + intros Hm. apply call_model_inv in Hm as (Ha' & Hl' & _).
      split; [congruence|].
      exists [EvProcessQueries [x]; EvModel p r].
      rewrite Hl', Hl, <- app_assoc. split; [done|]. split; [done|].
      split; [|done]. destruct r; simpl; [done|by rewrite app_nil_r].
Qed.

(* An item of the fallback that fails is dropped there and then: the
   handler leaves the state as the failure left it. *)
Lemma fallback_item_fail it x s e s1 :
  infer_single ext it x s = (inl e, s1) ->
  fallback_item ext it x s = (inr tt, s1).
Proof.
  intros H. unfold fallback_item, try_except, bind. by rewrite H.
Qed.

(* An item that succeeds is appended, and memory is reclaimed. *)
Lemma fallback_item_ok it x s vs s1 :
  infer_single ext it x s = (inr vs, s1) ->
  fallback_item ext it x s =
  (inr tt, mkState (empty_cache_gc ext (world s1))
                   (log s1 ++ [EvReclaim]) (acc s1 ++ vs)).
Proof.
  intros H. unfold fallback_item, try_except, bind. by rewrite H.
Qed.

Lemma fallback_item_inv it x s :
  exists s' l,
    fallback_item ext it x s = (inr tt, s') /\
    log s' = log s ++ l /\
    processor_calls l = singleton_calls ext it [x] /\
    acc s' = acc s ++ model_outputs l.
Proof.
  destruct (infer_single ext it x s) as [[e|vs] s1] eqn:H;
    destruct (infer_single_inv _ _ _ _ _ H) as (Ha & l & Hl & Hp & Ho & _).
  - exists s1, l. rewrite (fallback_item_fail _ _ _ _ _ H).
    rewrite Ho, app_nil_r. done.
  - eexists _, (l ++ [EvReclaim]). rewrite (fallback_item_ok _ _ _ _ _ H).
    simpl. rewrite Hl, Ha, processor_calls_app, model_outputs_app, Hp, Ho.
    simpl. by rewrite <- app_assoc, !app_nil_r.
Qed.

(* The item-by-item pass never raises; it calls the processor once per
   item, in order, and appends what the model returned. *)
Lemma fallback_inv it batch s :
  exists s' l,
    fallback ext it batch s = (inr tt, s') /\
    log s' = log s ++ l /\
    processor_calls l = singleton_calls ext it batch /\
    acc s' = acc s ++ model_outputs l.
Proof.
  revert s. induction batch as [|x batch IH]; intros s.
  - exists s, []. simpl. unfold ret, singleton_calls.
    rewrite !app_nil_r. by destruct (String.eqb it "image").
  - destruct (fallback_item_inv it x s) as (s1 & l1 & H1 & Hl1 & Hp1 & Ha1).
    destruct (IH s1) as (s2 & l2 & H2 & Hl2 & Hp2 & Ha2).
    exists s2, (l1 ++ l2). simpl. unfold bind. rewrite H1, H2.
    rewrite Hl2, Hl1, Ha2, Ha1, processor_calls_app, model_outputs_app.
    rewrite singleton_calls_cons, Hp1, Hp2, <- !app_assoc. done.
Qed.


End ServiceFacts.

(* --------------------------------------------------------------------- *)
(* Out-of-memory recovery                                                *)
(* --------------------------------------------------------------------- *)

Section Recovery.
Context {World Image Processed Embedding : Type}.
Variable ext : externals World Image Processed Embedding.

End Recovery.



Lemma C2_counterexample :
  Scripted.run "text" [PyStr "a"; PyStr "b"]
    [Some Scripted.oom; Some Scripted.oom; None] =
  (Ok200 [PyStr "b"],
   mkState []
     [EvProcessQueries [PyStr "a"; PyStr "b"];
      EvModel [PyStr "a"; PyStr "b"] (inl Scripted.oom);
      EvReclaim;
      EvProcessQueries [PyStr "a"];
      EvModel [PyStr "a"] (inl Scripted.oom);
      EvProcessQueries [PyStr "b"];
      EvModel [PyStr "b"] (inr [PyStr "b"]);
      EvReclaim;
      EvReclaim]
     [PyStr "b"]) /\
  is_oom_msg (exn_msg Scripted.oom) = true.
Proof. split; reflexivity. Qed.

Section Swallowed.
Context {World Image Processed Embedding : Type}.
Variable ext : externals World Image Processed Embedding.

(** C2 (amended): an out-of-memory error raised while running inference on
    one item of the item-by-item fallback is not fatal.  It is caught with
    every other exception of that attempt: the attempt ends normally in
    the state the failure left, the accumulator is as it was before the
    attempt (the item is dropped), and the pass goes on with the items
    after it and ends normally. *)
Theorem C2_singleton_oom_swallowed
    (input_type : string) (item : pyval) (rest : list pyval)
    (s s1 : state World Image Processed Embedding) (msg : string) :
  infer_single ext input_type item s = (inl (RuntimeError msg), s1) ->
  is_oom_msg msg = true ->
  fallback_item ext input_type item s = (inr tt, s1) /\
  acc s1 = acc s /\
  exists s',
    fallback ext input_type rest s1 = (inr tt, s') /\
    fallback ext input_type (item :: rest) s = (inr tt, s').
Proof.
  intros Hi _.
  pose proof (fallback_item_fail ext _ _ _ _ _ Hi) as Hf.
  destruct (infer_single_inv ext _ _ _ _ _ Hi) as (Ha & _).
  destruct (fallback_inv ext input_type rest s1) as (s' & l & Hr & _).
  split; [done|]. split; [done|].
  exists s'. split; [done|]. simpl. unfold bind. by rewrite Hf.
Qed.
End Swallowed.

Lemma C2_singleton_oom_swallowed_witness :
  let a := PyStr "a" in
  let b := PyStr "b" in
  let msg := "CUDA out of memory. Tried to allocate 2.00 GiB" in
  let s : state Scripted.World Scripted.Image Scripted.Processed
                Scripted.Embedding := mkState [Some Scripted.oom] [] [a] in
  let s1 := mkState [] [EvProcessQueries [b]; EvModel [b] (inl Scripted.oom)]
                    [a] in
  infer_single Scripted.ext "text" b s = (inl (RuntimeError msg), s1) /\
  is_oom_msg msg = true /\
  fallback_item Scripted.ext "text" b s = (inr tt, s1) /\
  acc s1 = acc s /\
  exists s',
    fallback Scripted.ext "text" [a] s1 = (inr tt, s') /\
    fallback Scripted.ext "text" [b; a] s = (inr tt, s').
Proof.
  intros a b msg s s1.
  split; [reflexivity|]. split; [reflexivity|].
  apply (C2_singleton_oom_swallowed Scripted.ext "text" b [a] s s1 msg);
    reflexivity.
Defined.

(** C3 (the code at the failing input): a text request of three items
    whose batch runs out of memory, and whose second item fails again on
    its own.  The attempts on the first and on the third item are each
    followed by a reclamation; the failed attempt on the second item is
    followed at once by the processor call of the third. *)
Theorem C3_failed_attempt_not_reclaimed :
  Scripted.run "text" [PyStr "x"; PyStr "y"; PyStr "z"]
    [Some Scripted.oom; None; Some Scripted.oom; None] =
  (Ok200 [PyStr "x"; PyStr "z"],
   mkState []
     [EvProcessQueries [PyStr "x"; PyStr "y"; PyStr "z"];
      EvModel [PyStr "x"; PyStr "y"; PyStr "z"] (inl Scripted.oom);
      EvReclaim;
      EvProcessQueries [PyStr "x"];
      EvModel [PyStr "x"] (inr [PyStr "x"]);
      EvReclaim;
      EvProcessQueries [PyStr "y"];
      EvModel [PyStr "y"] (inl Scripted.oom);
      EvProcessQueries [PyStr "z"];
      EvModel [PyStr "z"] (inr [PyStr "z"]);
      EvReclaim;
      EvReclaim]
     [PyStr "x"; PyStr "z"]).
Proof. reflexivity. Qed.

(* --------------------------------------------------------------------- *)
(* The loop over the batches and the responses                           *)
(* --------------------------------------------------------------------- *)

Section Loop.
Context {World Image Processed Embedding : Type}.
Variable ext : externals World Image Processed Embedding.

Implicit Types s : state World Image Processed Embedding.

(* The only `return` inside the loop is one of the two 400 responses, and
   it leaves the state alone. *)
Lemma process_batch_some it b s r s' :
  process_batch ext it b s = (inr (Some r), s') ->
  s' = s /\
  (r = Err400 "Invalid text inputs, not all are strings" \/
   r = Err400 "Invalid input_type").
Proof.
  unfold process_batch, bind, lift, ret.
  destruct (String.eqb it "image").
  - destruct (list_comprehension (_decode_image ext) b) as [e|[|img imgs]];
      [done|done|].
    destruct (call_process_images ext (img :: imgs) s) as [[e|p] s2]; [done|].
    destruct (infer_batch ext it b p s2) as [[e|[]] s3]; done.
  - destruct (String.eqb it "text").
    + destruct (forallb is_str b).
      * destruct (call_process_queries ext b s) as [[e|p] s2]; [done|].
        destruct (infer_batch ext it b p s2) as [[e|[]] s3]; done.
      * intros [= <- <-]. auto.
    + intros [= <- <-]. auto.
Qed.

Lemma run_batches_some it bs s r s' :
  run_batches ext it bs s = (inr (Some r), s') -> exists m, r = Err400 m.
Proof.
  revert s. induction bs as [|b bs IH]; intros s; simpl.
  - done.
  - unfold bind.
    destruct (process_batch ext it b s) as [[e|[r0|]] s1] eqn:Hb; [done| |].
    + intros [= <- <-].
      apply process_batch_some in Hb as (_ & [-> | ->]); eauto.
    + apply IH.
Qed.

(* The loop over bs1 ++ bs2 is the loop over bs1, then, when that one
   reached its end, the loop over bs2. *)
Lemma run_batches_app it bs1 bs2 s :
  run_batches ext it (bs1 ++ bs2) s =
  match run_batches ext it bs1 s with
  | (inr None, s1) => run_batches ext it bs2 s1
  | other => other
  end.
Proof.
  revert s. induction bs1 as [|b bs1 IH]; intros s; simpl.
  - done.
  - unfold bind.
    destruct (process_batch ext it b s) as [[e|[r0|]] s1]; [done|done|].
    apply IH.
Qed.

(* A response that is not the success response is never turned into one. *)
Lemma respond_not_ok it bs s embs :
  (forall s1, run_batches ext it bs s <> (inr None, s1)) ->
  fst (respond ext (run_batches ext it bs s)) <> Ok200 embs.
Proof.
  intros Hnone.
  destruct (run_batches ext it bs s) as [[e|[r|]] s1] eqn:Hr.
  - destruct e; done.
  - apply run_batches_some in Hr as [m ->]. done.
  - by destruct (Hnone s1).
Qed.

Lemma nonempty_plan it (x : pyval) xs :
  plan it (x :: xs) = firstn (batch_size it) (x :: xs)
                        :: plan it (skipn (batch_size it) (x :: xs)).
Proof. unfold plan. apply batches_cons; [apply batch_size_pos|done]. Qed.

(** C4 (amended): a request that is answered with the 500 error (an
    out-of-memory error that could not be recovered, or any other
    exception that is not a ValueError) reclaims memory as the last call
    before the response. *)
Theorem C4_reclaim_before_500
    (input_type : string) (inputs : list pyval) (w : World) (msg : string) :
  fst (generate_embeddings_endpoint ext input_type inputs w) = Err500 msg ->
  exists l,
    log (snd (generate_embeddings_endpoint ext input_type inputs w))
    = l ++ [EvReclaim].
Proof.
  unfold generate_embeddings_endpoint.
  destruct inputs as [|x xs]; [done|].
  destruct (run_batches ext input_type (plan input_type (x :: xs)) (init w))
    as [[e|[r|]] s1] eqn:Hr.
  - destruct e; simpl; [done| |]; intros _; by exists (log s1).
  - apply run_batches_some in Hr as [m ->]. done.
  - done.
Qed.
End Loop.

Lemma C4_counterexample :
  Scripted.run "text" [PyInt 5] [] =
    (Err400 "Invalid text inputs, not all are strings", init []) /\
  Scripted.run "audio" [PyStr "a"] [] =
    (Err400 "Invalid input_type", init []) /\
  Scripted.run "image" [PyStr "data:image/png;base64"] [] =
    (Err400
       "Input processing error: Malformed data URI string for image decoding.",
     init []) /\
  log (init (Embedding := Scripted.Embedding) (Image := Scripted.Image)
            (Processed := Scripted.Processed) ([] : Scripted.World)) = [].
Proof. repeat split. Qed.

Lemma C4_reclaim_before_500_witness :
  fst (Scripted.run "text" [PyStr "a"] [Some Scripted.oom]) =
    Err500 "Internal server error during embedding" /\
  exists l,
    log (snd (Scripted.run "text" [PyStr "a"] [Some Scripted.oom]))
    = l ++ [EvReclaim].
Proof.
  split; [reflexivity|].
  apply (C4_reclaim_before_500 Scripted.ext "text" [PyStr "a"]
           [Some Scripted.oom] "Internal server error during embedding").
  reflexivity.
Defined.

(* --------------------------------------------------------------------- *)
(* Input validation                                                      *)
(* --------------------------------------------------------------------- *)

Section Validation.
Context {World Image Processed Embedding : Type}.
Variable ext : externals World Image Processed Embedding.

Implicit Types s : state World Image Processed Embedding.

(* The three ways a string fails to decode. *)
Lemma decode_data_uri_without_comma (b64 : string) :
  String.prefix "data:" b64 = true ->
  after_first_comma b64 = None ->
  _decode_image ext (PyStr b64) =
  inl (ValueError "Malformed data URI string for image decoding.").
Proof. intros Hp Hc. unfold _decode_image. by rewrite Hp, Hc. Qed.

Lemma decode_bad_base64 (b64 m : string) :
  String.prefix "data:" b64 = false ->
  b64decode ext b64 = inl m ->
  _decode_image ext (PyStr b64) =
  inl (ValueError ("Failed to decode base64 image: " +:+ m)).
Proof. intros Hp Hb. unfold _decode_image. by rewrite Hp, Hb. Qed.

Lemma decode_bad_raster (b64 m : string) (bytes : list Byte.byte) :
  String.prefix "data:" b64 = false ->
  b64decode ext b64 = inr bytes ->
  open_image ext bytes = inl m ->
  _decode_image ext (PyStr b64) =
  inl (ValueError ("Failed to decode base64 image: " +:+ m)).
Proof. intros Hp Hb Ho. unfold _decode_image. by rewrite Hp, Hb, Ho. Qed.

(* Whatever the cause, a string that does not decode raises ValueError. *)
Lemma decode_str_failure (b64 : string) (e : exn) :
  _decode_image ext (PyStr b64) = inl e -> exists m, e = ValueError m.
Proof.
  unfold _decode_image.
  destruct (String.prefix "data:" b64).
  - destruct (after_first_comma b64) as [rest|].
    + destruct (b64decode ext rest) as [m|bytes]; [intros [= <-]; eauto|].
      destruct (open_image ext bytes) as [m|img]; [intros [= <-]; eauto|done].
    + intros [= <-]. eauto.
  - destruct (b64decode ext b64) as [m|bytes]; [intros [= <-]; eauto|].
    destruct (open_image ext bytes) as [m|img]; [intros [= <-]; eauto|done].
Qed.

Lemma process_image_batch_decode_failure (v : pyval) (e : exn) s :
  _decode_image ext v = inl e ->
  process_batch ext "image" [v] s = (inl e, s).
Proof.
  intros Hd. unfold process_batch, bind, lift. simpl.
  by rewrite Hd.
Qed.

Lemma plan_image_app (pre post : list pyval) (v : pyval) :
  plan "image" (pre ++ v :: post) =
  plan "image" pre ++ [v] :: plan "image" post.
Proof.
  unfold plan. change (batch_size "image") with 1.
  rewrite !batches_one, map_app. done.
Qed.

(** C5 (amended): when an item of an image request is a string that does
    not decode (a data URI without its comma, a base64 failure, bytes that
    are no image), the failure is a ValueError, that is BadInput, and it
    fails the whole request: no such request is answered with embeddings,
    and when the items before the offending one were processed to the end
    the response is the 400 error that carries the message, the
    embeddings of those items being discarded and the items after it not
    being processed. *)
Theorem C5_decode_failure_fails_request
    (pre post : list pyval) (b64 : string) (e : exn) (w : World) :
  _decode_image ext (PyStr b64) = inl e ->
  exists m,
    e = ValueError m /\
    (forall embs,
        fst (generate_embeddings_endpoint ext "image"
               (pre ++ PyStr b64 :: post) w) <> Ok200 embs) /\
    (forall s1,
        run_batches ext "image" (plan "image" pre) (init w) = (inr None, s1) ->
        generate_embeddings_endpoint ext "image" (pre ++ PyStr b64 :: post) w
        = (Err400 ("Input processing error: " +:+ m), s1)).
Proof.
  intros Hd. destruct (decode_str_failure _ _ Hd) as [m ->].
  exists m. split; [done|].
  assert (Hrun : forall s1,
             run_batches ext "image" (plan "image" pre) (init w) = (inr None, s1) ->
             run_batches ext "image" (plan "image" (pre ++ PyStr b64 :: post))
               (init w) = (inl (ValueError m), s1)).
  { intros s1 H1. rewrite plan_image_app, run_batches_app, H1.
    simpl. unfold bind.
    by rewrite (process_image_batch_decode_failure _ _ _ Hd). }
  assert (Hne : exists x xs, pre ++ PyStr b64 :: post = x :: xs).
  { destruct pre; simpl; eauto. }
  destruct Hne as (x & xs & Hne).
  unfold generate_embeddings_endpoint. rewrite Hne, <- Hne.
  split.
  - intros embs. apply respond_not_ok. intros s2 H2.
    rewrite plan_image_app, run_batches_app in H2.
    destruct (run_batches ext "image" (plan "image" pre) (init w))
      as [[e|[r|]] s1] eqn:H1; [done|done|].
    simpl in H2. unfold bind in H2.
    by rewrite (process_image_batch_decode_failure _ _ _ Hd) in H2.
  - intros s1 H1. by rewrite (Hrun s1 H1).
Qed.
End Validation.

Lemma C5_counterexample :
  Scripted.run "image" [PyStr "aGk="; PyStr "data:image/png;base64"] [] =
  (Err400
     "Input processing error: Malformed data URI string for image decoding.",
   mkState []
     [EvProcessImages ["aGk="];
      EvModel [PyStr "aGk="] (inr [PyStr "aGk="]);
      EvReclaim]
     [PyStr "aGk="]) /\
  Scripted.run "image" [PyStr "data:image/png;base64"; PyStr "aGk="] [] =
  (Err400
     "Input processing error: Malformed data URI string for image decoding.",
   init []) /\
  Scripted.run "image" [PyStr "aGk="] [] =
  (Ok200 [PyStr "aGk="],
   mkState []
     [EvProcessImages ["aGk="];
      EvModel [PyStr "aGk="] (inr [PyStr "aGk="]);
      EvReclaim;
      EvReclaim]
     [PyStr "aGk="]).
Proof. repeat split. Qed.

Lemma C5_decode_failure_fails_request_witness :
  let good := PyStr "aGk=" in
  let bad := "data:image/png;base64" in
  let m := "Malformed data URI string for image decoding." in
  _decode_image Scripted.ext (PyStr bad) = inl (ValueError m) /\
  exists m',
    ValueError m = ValueError m' /\
    (forall embs,
        fst (generate_embeddings_endpoint Scripted.ext "image"
               ([good] ++ PyStr bad :: [good]) []) <> Ok200 embs) /\
    (forall s1,
        run_batches Scripted.ext "image" (plan "image" [good]) (init [])
        = (inr None, s1) ->
        generate_embeddings_endpoint Scripted.ext "image"
          ([good] ++ PyStr bad :: [good]) []
        = (Err400 ("Input processing error: " +:+ m'), s1)).
Proof.
  intros good bad m. split; [reflexivity|].
  apply (C5_decode_failure_fails_request Scripted.ext [good] [good] bad
           (ValueError m) []).
  reflexivity.
Defined.

Section TextValidation.
Context {World Image Processed Embedding : Type}.
Variable ext : externals World Image Processed Embedding.

Implicit Types s : state World Image Processed Embedding.

Lemma process_text_batch_non_string (b : list pyval) (x : pyval) s :
  In x b -> is_str x = false ->
  process_batch ext "text" b s =
  (inr (Some (Err400 "Invalid text inputs, not all are strings")), s).
Proof.
  intros Hin Hx. unfold process_batch. simpl.
  destruct (forallb is_str b) eqn:Hall; [|done].
  rewrite forallb_forall in Hall. specialize (Hall x Hin). congruence.
Qed.

Lemma plan_split_at (it : string) (inputs : list pyval) (x : pyval) :
  In x inputs ->
  exists bs1 b bs2, plan it inputs = bs1 ++ b :: bs2 /\ In x b.
Proof.
  intros Hin.
  rewrite <- (batches_concat (batch_size it) inputs (batch_size_pos it)) in Hin.
  apply List.in_concat in Hin as (b & Hb & Hx).
  apply List.in_split in Hb as (bs1 & bs2 & Hsplit).
  exists bs1, b, bs2. done.
Qed.

(** C7 (amended): a text request that holds an item that is not a string
    is never answered with embeddings; when the batches before the batch
    of that item were processed to the end, the response is the 400 error
    "Invalid text inputs, not all are strings", whatever the other items
    of that batch and of the other batches are, and the batch is not sent
    to the processor. *)
Theorem C7_non_string_text_item
    (inputs : list pyval) (x : pyval) (w : World) :
  In x inputs ->
  is_str x = false ->
  (forall embs,
      fst (generate_embeddings_endpoint ext "text" inputs w) <> Ok200 embs) /\
  exists bs1 b bs2,
    plan "text" inputs = bs1 ++ b :: bs2 /\
    In x b /\
    forall s1,
      run_batches ext "text" bs1 (init w) = (inr None, s1) ->
      generate_embeddings_endpoint ext "text" inputs w
      = (Err400 "Invalid text inputs, not all are strings", s1).
Proof.
  intros Hin Hx.
  destruct (plan_split_at "text" inputs x Hin) as (bs1 & b & bs2 & Hplan & Hb).
  assert (Hrun : forall s1,
             run_batches ext "text" bs1 (init w) = (inr None, s1) ->
             run_batches ext "text" (plan "text" inputs) (init w)
             = (inr (Some (Err400 "Invalid text inputs, not all are strings")),
                s1)).
  { intros s1 H1. rewrite Hplan, run_batches_app, H1.
    simpl. unfold bind.
    by rewrite (process_text_batch_non_string b x s1 Hb Hx). }
  unfold generate_embeddings_endpoint.
  destruct inputs as [|y ys]; [done|].
  split.
  - intros embs. apply respond_not_ok. intros s2 H2.
    destruct (run_batches ext "text" bs1 (init w)) as [[e|[r|]] s1] eqn:H1.
    + rewrite Hplan, run_batches_app, H1 in H2. done.
    + rewrite Hplan, run_batches_app, H1 in H2. done.
    + rewrite (Hrun s1 eq_refl) in H2. done.
  - exists bs1, b, bs2. split; [done|]. split; [done|].
    intros s1 H1. by rewrite (Hrun s1 H1).
Qed.

(** C8 (amended): a request with at least one input whose input_type is
    neither "text" nor "image" is answered with the 400 error
    "Invalid input_type"; neither the processor nor the model is called
    (the log of the request is empty and the world is the one the request
    started in). *)
Theorem C8_unknown_input_type
    (input_type : string) (inputs : list pyval) (w : World) :
  inputs <> [] ->
  input_type <> "text" ->
  input_type <> "image" ->
  generate_embeddings_endpoint ext input_type inputs w
  = (Err400 "Invalid input_type", mkState w [] []).
Proof.
  intros Hne Htext Himage.
  destruct inputs as [|x xs]; [done|].
  unfold generate_embeddings_endpoint. rewrite nonempty_plan.
  simpl. unfold bind, process_batch.
  apply String.eqb_neq in Htext, Himage. by rewrite Himage, Htext.
Qed.

(** C9: a request whose inputs list is empty is answered
    {"embeddings": []} whatever its input_type is, before anything else
    is looked at: no call is made and the world is left as it was. *)
Theorem C9_empty_inputs (input_type : string) (w : World) :
  generate_embeddings_endpoint ext input_type [] w
  = (Ok200 [], mkState w [] []).
Proof. reflexivity. Qed.
End TextValidation.

Lemma C7_counterexample :
  Scripted.run "text"
    [PyStr "a"; PyStr "b"; PyStr "c"; PyStr "d"; PyInt 5]
    [Some Scripted.boom] =
  (Err500 "Internal server error during embedding",
   mkState []
     [EvProcessQueries [PyStr "a"; PyStr "b"; PyStr "c"; PyStr "d"];
      EvModel [PyStr "a"; PyStr "b"; PyStr "c"; PyStr "d"]
        (inl Scripted.boom);
      EvReclaim]
     []) /\
  In (PyInt 5) [PyStr "a"; PyStr "b"; PyStr "c"; PyStr "d"; PyInt 5] /\
  is_str (PyInt 5) = false.
Proof. repeat split. simpl. tauto. Qed.

Lemma C7_non_string_text_item_witness :
  let inputs := [PyStr "a"; PyStr "b"; PyStr "c"; PyStr "d"; PyInt 5] in
  In (PyInt 5) inputs /\
  is_str (PyInt 5) = false /\
  (forall embs,
      fst (generate_embeddings_endpoint Scripted.ext "text" inputs []) <>
      Ok200 embs) /\
  exists bs1 b bs2,
    plan "text" inputs = bs1 ++ b :: bs2 /\
    In (PyInt 5) b /\
    forall s1,
      run_batches Scripted.ext "text" bs1 (init []) = (inr None, s1) ->
      generate_embeddings_endpoint Scripted.ext "text" inputs []
      = (Err400 "Invalid text inputs, not all are strings", s1).
Proof.
  intros inputs.
  assert (Hin : In (PyInt 5) inputs) by (simpl; tauto).
  split; [exact Hin|]. split; [reflexivity|].
  apply (C7_non_string_text_item Scripted.ext inputs (PyInt 5) [] Hin).
  reflexivity.
Defined.

Lemma C8_counterexample :
  "audio" <> "text" /\
  "audio" <> "image" /\
  Scripted.run "audio" [] [] = (Ok200 [], init []).
Proof. repeat split; done. Qed.

Lemma C8_unknown_input_type_witness :
  [PyStr "a"] <> [] /\
  "audio" <> "text" /\
  "audio" <> "image" /\
  generate_embeddings_endpoint Scripted.ext "audio" [PyStr "a"] []
  = (Err400 "Invalid input_type", mkState [] [] []).
Proof.
  assert (H1 : [PyStr "a"] <> []) by done.
  assert (H2 : "audio" <> "text") by done.
  assert (H3 : "audio" <> "image") by done.
  split; [exact H1|]. split; [exact H2|]. split; [exact H3|].
  exact (C8_unknown_input_type Scripted.ext "audio" [PyStr "a"] [] H1 H2 H3).
Defined.

(* --------------------------------------------------------------------- *)
(* Order of the result                                                   *)
(* --------------------------------------------------------------------- *)

Section Order.
Context {World Image Processed Embedding : Type}.
Variable ext : externals World Image Processed Embedding.
Variable input_type : string.
Variable emb : pyval -> Embedding.
Hypothesis Hpointwise : pointwise ext input_type emb.

Implicit Types s : state World Image Processed Embedding.

(* An item of the fallback that succeeds yields the embedding of that
   item. *)
Lemma infer_single_pointwise x s vs s1 :
  infer_single ext input_type x s = (inr vs, s1) -> vs = [emb x].
Proof.
  pose proof Hpointwise as Hpw. unfold pointwise in Hpw.
  unfold infer_single, bind, lift.
  destruct (String.eqb input_type "image").
  - destruct (_decode_image ext x) as [e|img] eqn:Hd; [done|].
    destruct (call_process_images ext [img] s) as [[e|p] s2] eqn:Hp; [done|].
    apply call_process_images_inv in Hp as (_ & _ & Hp).
    intros Hm. apply call_model_inv in Hm as (_ & _ & Hm).
    assert (Hd' : list_comprehension (_decode_image ext) [x] = inr [img])
      by (by rewrite list_comprehension_one, Hd).
    apply (Hpw [x] [img] _ _ _ _ _ Hd' Hp Hm).
  - destruct (call_process_queries ext [x] s) as [[e|p] s2] eqn:Hp; [done|].
    apply call_process_queries_inv in Hp as (_ & _ & Hp).
    intros Hm. apply call_model_inv in Hm as (_ & _ & Hm).
    apply (Hpw [x] _ _ _ _ _ Hp Hm).
Qed.

Lemma fallback_item_kept x s s' :
  fallback_item ext input_type x s = (inr tt, s') ->
  exists kept, kept `sublist_of` [x] /\ acc s' = acc s ++ map emb kept.
Proof.
  destruct (infer_single ext input_type x s) as [[e|vs] s1] eqn:Hi.
  - rewrite (fallback_item_fail ext _ _ _ _ _ Hi). intros [= <-].
    destruct (infer_single_inv ext _ _ _ _ _ Hi) as (Ha & _).
    exists []. split; [apply sublist_nil_l|]. by rewrite Ha, app_nil_r.
  - rewrite (fallback_item_ok ext _ _ _ _ _ Hi). intros [= <-].
    destruct (infer_single_inv ext _ _ _ _ _ Hi) as (Ha & _).
    rewrite (infer_single_pointwise _ _ _ _ Hi).
    exists [x]. split; [done|]. simpl. by rewrite Ha.
Qed.

(* The item-by-item pass keeps a subsequence of the batch. *)
Lemma fallback_kept batch s s' :
  fallback ext input_type batch s = (inr tt, s') ->
  exists kept, kept `sublist_of` batch /\ acc s' = acc s ++ map emb kept.
Proof.
  revert s. induction batch as [|x batch IH]; intros s; simpl.
  - intros [= <-]. exists []. split; [done|]. by rewrite app_nil_r.
  - unfold bind.
    destruct (fallback_item_inv ext input_type x s) as (s1 & l & H1 & _).
    rewrite H1. intros Hrest.
    destruct (fallback_item_kept _ _ _ H1) as (k1 & Hk1 & Ha1).
    destruct (IH _ Hrest) as (k2 & Hk2 & Ha2).
    exists (k1 ++ k2). split.
    + change (x :: batch) with ([x] ++ batch). by apply sublist_app.
    + by rewrite Ha2, Ha1, map_app, app_assoc.
Qed.

(* A batch whose model call is sound for its items: all of them in one
   call, or those the fallback kept. *)
Lemma infer_batch_kept batch p s s' :
  (forall vs w', model ext p (world s) = (inr vs, w') -> vs = map emb batch) ->
  infer_batch ext input_type batch p s = (inr tt, s') ->
  exists kept, kept `sublist_of` batch /\ acc s' = acc s ++ map emb kept.
Proof.
  intros Hmodel. unfold infer_batch.
  destruct (truthy ext p).
  - unfold try_except, bind.
    destruct (call_model ext p s) as [[e|vs] s1] eqn:Hm;
      apply call_model_inv in Hm as (Ha & _ & Hm).
    + unfold on_batch_error.
      destruct e as [m|m|m]; [done| |done].
      destruct (is_oom_msg m); [|done].
      unfold bind. simpl.
      destruct (Nat.ltb 1 (length batch)); [|done].
      intros Hf. apply fallback_kept in Hf as (kept & Hk & Hacc).
      exists kept. split; [done|]. simpl in Hacc. by rewrite Hacc, Ha.
    + simpl. intros [= <-]. simpl.
      rewrite (Hmodel _ _ Hm), Ha. by exists batch.
  - intros [= <-]. exists []. split; [apply sublist_nil_l|].
    by rewrite app_nil_r.
Qed.

Lemma process_batch_kept batch s s' :
  process_batch ext input_type batch s = (inr None, s') ->
  exists kept, kept `sublist_of` batch /\ acc s' = acc s ++ map emb kept.
Proof.
  pose proof Hpointwise as Hpw. unfold pointwise in Hpw.
  unfold process_batch, bind, lift, ret.
  destruct (String.eqb input_type "image").
  - destruct (list_comprehension (_decode_image ext) batch)
      as [e|imgs] eqn:Hd; [done|].
    destruct imgs as [|img imgs].
    + intros [= <-]. exists []. split; [apply sublist_nil_l|].
      by rewrite app_nil_r.
    + destruct (call_process_images ext (img :: imgs) s) as [[e|p] s2] eqn:Hp;
        [done|].
      apply call_process_images_inv in Hp as (Ha & _ & Hp).
      destruct (infer_batch ext input_type batch p s2) as [[e|[]] s3] eqn:Hi;
        [done|].
      intros [= <-].
      apply infer_batch_kept in Hi as (kept & Hk & Hacc).
      * exists kept. by rewrite Hacc, Ha.
      * intros vs w' Hm. apply (Hpw batch _ _ _ _ _ _ Hd Hp Hm).
  - destruct (String.eqb input_type "text"); [|done].
    destruct (forallb is_str batch); [|done].
    destruct (call_process_queries ext batch s) as [[e|p] s2] eqn:Hp; [done|].
    apply call_process_queries_inv in Hp as (Ha & _ & Hp).
    destruct (infer_batch ext input_type batch p s2) as [[e|[]] s3] eqn:Hi;
      [done|].
    intros [= <-].
    apply infer_batch_kept in Hi as (kept & Hk & Hacc).
    + exists kept. by rewrite Hacc, Ha.
    + intros vs w' Hm. apply (Hpw batch _ _ _ _ _ Hp Hm).
Qed.

(* Loop invariant: what has been accumulated is the image of a
   subsequence of the items of the batches gone through. *)
Lemma run_batches_kept bs s s' :
  run_batches ext input_type bs s = (inr None, s') ->
  exists kept, kept `sublist_of` concat bs /\ acc s' = acc s ++ map emb kept.
Proof.
  revert s. induction bs as [|b bs IH]; intros s; simpl.
  - intros [= <-]. exists []. split; [done|]. by rewrite app_nil_r.
  - unfold bind.
    destruct (process_batch ext input_type b s) as [[e|[r|]] s1] eqn:Hb;
      [done|done|].
    intros Hrest.
    destruct (process_batch_kept _ _ _ Hb) as (k1 & Hk1 & Ha1).
    destruct (IH _ Hrest) as (k2 & Hk2 & Ha2).
    exists (k1 ++ k2). split; [by apply sublist_app|].
    by rewrite Ha2, Ha1, map_app, app_assoc.
Qed.
End Order.

Section Outputs.
Context {World Image Processed Embedding : Type}.
Variable ext : externals World Image Processed Embedding.

Implicit Types s : state World Image Processed Embedding.

(* Whatever a batch does, and however it ends, what it appends to the
   accumulator is what its model calls returned, in the order of the
   calls. *)
Lemma infer_batch_outputs it b p s r s' :
  infer_batch ext it b p s = (r, s') ->
  exists l, log s' = log s ++ l /\ acc s' = acc s ++ model_outputs l.
Proof.
  unfold infer_batch. destruct (truthy ext p).
  - unfold try_except, bind.
    destruct (call_model ext p s) as [[e|vs] s1] eqn:Hm;
      apply call_model_inv in Hm as (Ha & Hl & _).
    + assert (Hraise : forall e', (@raise _ unit e') s1 = (r, s') ->
                exists l, log s' = log s ++ l /\
                          acc s' = acc s ++ model_outputs l).
      { intros e' [= <- <-]. exists [EvModel p (inl e)].
        rewrite Hl, Ha. simpl. by rewrite app_nil_r. }
      unfold on_batch_error.
      destruct e as [m|m|m]; [apply Hraise| |apply Hraise].
      destruct (is_oom_msg m); [|apply Hraise].
      unfold bind. simpl.
      destruct (Nat.ltb 1 (length b)).
      * destruct (fallback_inv ext it b
                    (emit EvReclaim (empty_cache_gc ext (world s1)) s1))
          as (s2 & l2 & Hf & Hl2 & _ & Ha2).
        rewrite Hf. intros [= <- <-].
        exists (EvModel p (inl (RuntimeError m)) :: EvReclaim :: l2).
        rewrite Hl2, Ha2. simpl. rewrite Hl, Ha, <- !app_assoc. done.
      * intros [= <- <-]. exists [EvModel p (inl (RuntimeError m)); EvReclaim].
        simpl. rewrite Hl, Ha, <- app_assoc, app_nil_r. done.
    + simpl. intros [= <- <-]. exists [EvModel p (inr vs); EvReclaim].
      simpl. rewrite Hl, Ha, <- app_assoc, !app_nil_r. done.
  - intros [= <- <-]. exists []. by rewrite !app_nil_r.
Qed.

Lemma process_batch_outputs it b s r s' :
  process_batch ext it b s = (r, s') ->
  exists l, log s' = log s ++ l /\ acc s' = acc s ++ model_outputs l.
Proof.
  assert (Hsame : forall r0 : exn + option (response Embedding),
             (r0, s) = (r, s') ->
             exists l, log s' = log s ++ l /\
                       acc s' = acc s ++ model_outputs l).
  { intros r0 [= <- <-]. exists []. by rewrite !app_nil_r. }
  unfold process_batch, bind, lift, ret.
  destruct (String.eqb it "image").
  - destruct (list_comprehension (_decode_image ext) b) as [e|[|img imgs]];
      [apply Hsame|apply Hsame|].
    destruct (call_process_images ext (img :: imgs) s) as [[e|p] s2] eqn:Hp;
      apply call_process_images_inv in Hp as (Ha & Hl & _).
    + intros [= <- <-]. exists [EvProcessImages (img :: imgs)].
      rewrite Hl, Ha. simpl. by rewrite app_nil_r.
    + destruct (infer_batch ext it b p s2) as [r2 s3] eqn:Hi.
      apply infer_batch_outputs in Hi as (l & Hl3 & Ha3).
      intros Heq.
      assert (Hend : s3 = s') by (destruct r2 as [e|[]]; congruence).
      subst s3. exists (EvProcessImages (img :: imgs) :: l).
      rewrite Hl3, Ha3, Hl, Ha, <- app_assoc. done.
  - destruct (String.eqb it "text"); [|apply Hsame].
    destruct (forallb is_str b); [|apply Hsame].
    destruct (call_process_queries ext b s) as [[e|p] s2] eqn:Hp;
      apply call_process_queries_inv in Hp as (Ha & Hl & _).
    + intros [= <- <-]. exists [EvProcessQueries b].
      rewrite Hl, Ha. simpl. by rewrite app_nil_r.
    + destruct (infer_batch ext it b p s2) as [r2 s3] eqn:Hi.
      apply infer_batch_outputs in Hi as (l & Hl3 & Ha3).
      intros Heq.
      assert (Hend : s3 = s') by (destruct r2 as [e|[]]; congruence).
      subst s3. exists (EvProcessQueries b :: l).
      rewrite Hl3, Ha3, Hl, Ha, <- app_assoc. done.
Qed.

Lemma run_batches_outputs it bs s r s' :
  run_batches ext it bs s = (r, s') ->
  exists l, log s' = log s ++ l /\ acc s' = acc s ++ model_outputs l.
Proof.
  revert s. induction bs as [|b bs IH]; intros s; simpl.
  - intros [= <- <-]. exists []. by rewrite !app_nil_r.
  - unfold bind.
    destruct (process_batch ext it b s) as [r1 s1] eqn:Hb.
    apply process_batch_outputs in Hb as (l1 & Hl1 & Ha1).
    destruct r1 as [e|[resp|]].
    + intros [= <- <-]. eauto.
    + intros [= <- <-]. eauto.
    + intros Hrest. apply IH in Hrest as (l2 & Hl2 & Ha2).
      exists (l1 ++ l2).
      by rewrite Hl2, Ha2, Hl1, Ha1, model_outputs_app, <- !app_assoc.
Qed.
End Outputs.

Section OrderPreserved.
Context {World Image Processed Embedding : Type}.
Variable ext : externals World Image Processed Embedding.

(** C10: the embeddings of a success response are, in the order of the
    calls, what the model calls of the request that succeeded returned:
    they are appended batch by batch and, inside a recovered batch, item
    by item, and nothing is moved afterwards.  When the processor and the
    model return one embedding per item (emb of the item, in the order of
    the items they were given), the embeddings of a success response are
    therefore the embeddings of a subsequence of the inputs: every vector
    comes from an input, and the vectors are in the relative order of the
    inputs they come from, whichever batches were recovered item by item
    and whichever items were dropped. *)
Theorem C10_order_preserved
    (input_type : string) (emb : pyval -> Embedding)
    (inputs : list pyval) (w : World) (embs : list Embedding) :
  pointwise ext input_type emb ->
  fst (generate_embeddings_endpoint ext input_type inputs w) = Ok200 embs ->
  embs = model_outputs
           (log (snd (generate_embeddings_endpoint ext input_type inputs w))) /\
  exists kept, kept `sublist_of` inputs /\ embs = map emb kept.
Proof.
  intros Hpw. unfold generate_embeddings_endpoint.
  destruct inputs as [|x xs].
  - intros [= <-]. split; [done|]. by exists [].
  - destruct (run_batches ext input_type (plan input_type (x :: xs)) (init w))
      as [[e|[r|]] s1] eqn:Hr.
    + by destruct e.
    + apply run_batches_some in Hr as [m ->]. done.
    + simpl. intros [= <-]. split.
      * apply run_batches_outputs in Hr as (l & Hl & Ha).
        simpl in Hl, Ha. rewrite Hl, Ha, model_outputs_app. simpl.
        by rewrite app_nil_r.
      * apply (run_batches_kept ext input_type emb Hpw) in Hr
          as (kept & Hk & Hacc).
        exists kept. split; [|done].
        unfold plan in Hk.
        by rewrite (batches_concat _ _ (batch_size_pos input_type)) in Hk.
Qed.
End OrderPreserved.

Lemma scripted_pointwise_text :
  pointwise Scripted.ext "text" (fun v => v).
Proof.
  unfold pointwise. simpl. intros items w p w' r w'' [= <- <-].
  rewrite map_id. unfold Scripted.scripted_model.
  destruct w as [|[e|] w]; by intros [= <- _].
Qed.

Lemma scripted_pointwise_image :
  pointwise Scripted.ext "image" Scripted.emb_image.
Proof.
  unfold pointwise. simpl. intros items imgs w p w' r w'' Hd [= <- <-] Hm.
  assert (Hr : r = map PyStr imgs).
  { unfold Scripted.scripted_model in Hm.
    destruct w as [|[e|] w]; by simplify_eq. }
  subst r. clear Hm. revert imgs Hd.
  induction items as [|v items IH]; intros imgs; simpl.
  - by intros [= <-].
  - unfold Scripted.emb_image.
    destruct (_decode_image Scripted.ext v) as [e|img]; [done|].
    destruct (list_comprehension (_decode_image Scripted.ext) items)
      as [e|imgs']; [done|].
    intros [= <-]. simpl. f_equal. by apply IH.
Qed.

Lemma C10_order_preserved_witness :
  let inputs := [PyStr "x"; PyStr "y"; PyStr "z"] in
  let w := [Some Scripted.oom; None; Some Scripted.oom; None] in
  pointwise Scripted.ext "text" (fun v => v) /\
  fst (generate_embeddings_endpoint Scripted.ext "text" inputs w)
  = Ok200 [PyStr "x"; PyStr "z"] /\
  [PyStr "x"; PyStr "z"] =
  model_outputs
    (log (snd (generate_embeddings_endpoint Scripted.ext "text" inputs w))) /\
  exists kept,
    kept `sublist_of` inputs /\
    [PyStr "x"; PyStr "z"] = map (fun v => v) kept.
Proof.
  intros inputs w.
  split; [exact scripted_pointwise_text|]. split; [reflexivity|].
  apply (C10_order_preserved Scripted.ext "text" (fun v => v) inputs w
           [PyStr "x"; PyStr "z"] scripted_pointwise_text).
  reflexivity.
Defined.

(* ===================================================================== *)
(* Further properties of the service and of the secrets script           *)
(* ===================================================================== *)

(* --------------------------------------------------------------------- *)
(* The windows of a plan                                                 *)
(* --------------------------------------------------------------------- *)

Lemma batches_full_windows {A} (bs : nat) (xs : list A) :
  0 < bs ->
  forall pre last,
    batches bs xs = pre ++ [last] ->
    Forall (fun b => length b = bs) pre.
Proof.
  intros Hbs. pattern xs. apply (batches_ind bs); [done| |]; clear xs.
  - intros pre last. rewrite batches_nil. by destruct pre.
  - intros xs Hne IH pre last. rewrite batches_cons by done.
    destruct pre as [|b pre]; [constructor|].
    simpl. intros [= <- Hrest]. constructor; [|by apply (IH pre last)].
    rewrite length_firstn.
    assert (Hlong : skipn bs xs <> []).
    { intros Hnil. rewrite Hnil, batches_nil in Hrest. by destruct pre. }
    assert (0 < length (skipn bs xs)) by (destruct (skipn bs xs); simpl; [done|lia]).
    rewrite length_skipn in *. lia.
Qed.

(** X1: only the last window of a plan can be short: every window before
    the last one holds exactly batch_size items (4 texts, 1 image). *)
Theorem plan_only_last_window_short
    (input_type : string) (inputs : list pyval)
    (pre : list (list pyval)) (last : list pyval) :
  plan input_type inputs = pre ++ [last] ->
  Forall (fun b => length b = batch_size input_type) pre.
Proof.
  unfold plan. apply batches_full_windows, batch_size_pos.
Qed.

Lemma plan_only_last_window_short_witness :
  let inputs := map PyInt [1; 2; 3; 4; 5; 6; 7; 8; 9]%Z in
  let pre := [map PyInt [1; 2; 3; 4]%Z; map PyInt [5; 6; 7; 8]%Z] in
  plan "text" inputs = pre ++ [[PyInt 9]] /\
  Forall (fun b => length b = batch_size "text") pre.
Proof.
  intros inputs pre. split; [reflexivity|].
  apply (plan_only_last_window_short "text" inputs pre [PyInt 9]).
  reflexivity.
Defined.

(* --------------------------------------------------------------------- *)
(* Which messages are out-of-memory messages                             *)
(* --------------------------------------------------------------------- *)

Lemma append_cons (c : ascii) (n post : string) :
  String c n +:+ post = String c (n +:+ post).
Proof. reflexivity. Qed.

Lemma append_nil (post : string) : "" +:+ post = post.
Proof. reflexivity. Qed.

Lemma prefix_iff (n h : string) :
  String.prefix n h = true <-> exists post, h = n +:+ post.
Proof.
  revert h. induction n as [|c n IH]; intros h.
  - split; [intros _; by exists h|]. intros _. by destruct h.
  - destruct h as [|d h]; simpl.
    + split; [done|intros [post Hp]; done].
    + destruct (Ascii.ascii_dec c d) as [->|Hne].
      * rewrite IH. split; intros [post Hp]; exists post;
          rewrite append_cons in *; congruence.
      * split; [done|]. intros [post Hp]. rewrite append_cons in Hp.
        congruence.
Qed.

Lemma contains_iff (n h : string) :
  contains n h = true <-> exists pre post, h = pre +:+ n +:+ post.
Proof.
  induction h as [|d h IH].
  - change (contains n "") with (String.prefix n "" || false).
    rewrite orb_false_r, prefix_iff. split.
    + intros [post Hp]. by exists "", post.
    + intros (pre & post & Hp). destruct pre as [|c pre].
      * rewrite append_nil in Hp. by exists post.
      * rewrite append_cons in Hp. done.
  - change (contains n (String d h))
      with (String.prefix n (String d h) || contains n h).
    rewrite orb_true_iff, prefix_iff, IH. split.
    + intros [[post Hp]|(pre & post & Hp)].
      * by exists "", post.
      * exists (String d pre), post. by rewrite append_cons, Hp.
    + intros (pre & post & Hp). destruct pre as [|c pre].
      * left. rewrite append_nil in Hp. by exists post.
      * right. exists pre, post. rewrite append_cons in Hp. congruence.
Qed.

Section OomPhrase.
Context {World Image Processed Embedding : Type}.
Variable ext : externals World Image Processed Embedding.

(* A model call that raises hands the exception to the handler of the
   batch, in the state the call left. *)
Lemma infer_batch_model_error
    (input_type : string) (batch : list pyval) (p : Processed)
    (s s1 : state World Image Processed Embedding) (e : exn) :
  truthy ext p = true ->
  call_model ext p s = (inl e, s1) ->
  infer_batch ext input_type batch p s =
  on_batch_error ext input_type batch e s1.
Proof.
  intros Ht Hm. unfold infer_batch, try_except, bind. by rewrite Ht, Hm.
Qed.

(** X2: the handler of a batch (`except RuntimeError as e`, with the test
    `"out of memory" in str(e)`) recovers a batch of more than one item
    whose model call raised a RuntimeError exactly when the phrase
    "out of memory", in lower case, occurs somewhere in the message of
    the error: the batch then ends normally; when the phrase does not
    occur the error leaves the batch as it is, in the state the model
    call left (no reclamation, no item taken alone). *)
Theorem batch_recovered_iff_oom_phrase
    (input_type : string) (batch : list pyval) (p : Processed)
    (s s1 : state World Image Processed Embedding) (msg : string) :
  truthy ext p = true ->
  call_model ext p s = (inl (RuntimeError msg), s1) ->
  1 < length batch ->
  ((exists pre post, msg = pre +:+ "out of memory" +:+ post) <->
   (exists s', infer_batch ext input_type batch p s = (inr tt, s'))) /\
  (~ (exists pre post, msg = pre +:+ "out of memory" +:+ post) ->
   infer_batch ext input_type batch p s = (inl (RuntimeError msg), s1)).
Proof.
  intros Ht Hm Hlen. apply Nat.ltb_lt in Hlen.
  rewrite (infer_batch_model_error _ _ _ _ _ _ Ht Hm).
  unfold on_batch_error, bind.
  rewrite <- (contains_iff "out of memory" msg).
  change (contains "out of memory" msg) with (is_oom_msg msg).
  destruct (is_oom_msg msg).
  - rewrite Hlen. split; [|done]. split; [intros _|done].
    destruct (fallback_inv ext input_type batch
                (snd (_clear_gpu_memory ext s1))) as (s' & _ & Hf & _).
    by exists s'.
  - split; [|done]. split; [done|]. by intros [s' Hs'].
Qed.
End OomPhrase.

Lemma batch_recovered_iff_oom_phrase_witness :
  let a := PyStr "a" in
  let b := PyStr "b" in
  let lower := "CUDA out of memory. Tried to allocate 2.00 GiB" in
  let upper := "CUDA Out Of Memory" in
  (* the phrase occurs: the batch is recovered *)
  (exists s',
      infer_batch Scripted.ext "text" [a; b] [a; b]
        (Scripted.processed [a; b] [Some (RuntimeError lower)])
      = (inr tt, s')) /\
  (* the words occur in another case: the error leaves the batch *)
  infer_batch Scripted.ext "text" [a; b] [a; b]
    (Scripted.processed [a; b] [Some (RuntimeError upper)])
  = (inl (RuntimeError upper),
     Scripted.failed [a; b] (RuntimeError upper) []).
Proof.
  intros a b lower upper. split.
  - apply (batch_recovered_iff_oom_phrase Scripted.ext "text" [a; b] [a; b]
             (Scripted.processed [a; b] [Some (RuntimeError lower)])
             (Scripted.failed [a; b] (RuntimeError lower) []) lower);
      [reflexivity|reflexivity|simpl; lia|].
    by exists "CUDA ", ". Tried to allocate 2.00 GiB".
  - apply (batch_recovered_iff_oom_phrase Scripted.ext "text" [a; b] [a; b]
             (Scripted.processed [a; b] [Some (RuntimeError upper)])
             (Scripted.failed [a; b] (RuntimeError upper) []) upper);
      [reflexivity|reflexivity|simpl; lia|].
    intros H. apply contains_iff in H. vm_compute in H. discriminate H.
Defined.

(* --------------------------------------------------------------------- *)
(* Data URIs                                                             *)
(* --------------------------------------------------------------------- *)

Lemma after_first_comma_app (header payload : string) :
  after_first_comma header = None ->
  after_first_comma (header +:+ "," +:+ payload) = Some payload.
Proof.
  induction header as [|c header IH].
  - intros _. reflexivity.
  - rewrite append_cons. simpl.
    destruct (Ascii.eqb c ","); [done|]. apply IH.
Qed.

Section DataUri.
Context {World Image Processed Embedding : Type}.
Variable ext : externals World Image Processed Embedding.

(** X3: a data URI decodes to what its payload decodes to: for a header
    without a comma and a payload that does not itself start with
    "data:", the string "data:" + header + "," + payload and the bare
    payload give the same image or the same error; only the first comma
    splits, so commas in the payload are kept. *)
Theorem data_uri_decodes_as_payload (header payload : string) :
  after_first_comma header = None ->
  String.prefix "data:" payload = false ->
  _decode_image ext (PyStr ("data:" +:+ header +:+ "," +:+ payload)) =
  _decode_image ext (PyStr payload).
Proof.
  intros Hheader Hpayload. unfold _decode_image.
  rewrite Hpayload.
  assert (Hp : String.prefix "data:" ("data:" +:+ header +:+ "," +:+ payload)
               = true) by (apply prefix_iff; eauto).
  rewrite Hp.
  assert (Hc : after_first_comma ("data:" +:+ header +:+ "," +:+ payload)
               = Some payload).
  { rewrite !append_cons, append_nil. simpl.
    by apply after_first_comma_app. }
  by rewrite Hc.
Qed.
End DataUri.

Lemma data_uri_decodes_as_payload_witness :
  after_first_comma "image/png;base64" = None /\
  String.prefix "data:" "aGk=,x" = false /\
  _decode_image Scripted.ext (PyStr ("data:" +:+ "image/png;base64" +:+ "," +:+ "aGk=,x")) =
  _decode_image Scripted.ext (PyStr "aGk=,x").
Proof.
  split; [reflexivity|]. split; [reflexivity|].
  apply (data_uri_decodes_as_payload Scripted.ext "image/png;base64" "aGk=,x");
    reflexivity.
Defined.

(* --------------------------------------------------------------------- *)
(* Errors that are not recovered                                         *)
(* --------------------------------------------------------------------- *)

Section NotRecovered.
Context {World Image Processed Embedding : Type}.
Variable ext : externals World Image Processed Embedding.

Implicit Types s : state World Image Processed Embedding.

(** X4: an exception of the model call of a batch that is not a
    RuntimeError holding "out of memory" is not recovered, whatever the
    size of the batch: no reclamation and no item-by-item pass follow in
    the batch, the exception leaves it as it is, and the request is
    answered 400 "Input processing error: ..." when the exception is a
    ValueError (no reclamation at all) and 500 after one reclamation
    otherwise. *)
Theorem model_error_not_retried
    (input_type : string) (batch : list pyval) (p : Processed)
    (s s1 : state World Image Processed Embedding) (e : exn) :
  truthy ext p = true ->
  call_model ext p s = (inl e, s1) ->
  (forall msg, e = RuntimeError msg -> is_oom_msg msg = false) ->
  infer_batch ext input_type batch p s = (inl e, s1) /\
  forall k : unit -> M _ (option (response Embedding)),
    respond ext (bind (infer_batch ext input_type batch p) k s) =
    match e with
    | ValueError m => (Err400 ("Input processing error: " +:+ m), s1)
    | _ => (Err500 "Internal server error during embedding",
            snd (_clear_gpu_memory ext s1))
    end.
Proof.
  intros Ht Hm Hnot.
  assert (Hstep : infer_batch ext input_type batch p s = (inl e, s1)).
  { unfold infer_batch, try_except, bind. rewrite Ht, Hm.
    unfold on_batch_error. destruct e as [m|m|m]; [done| |done].
    by rewrite (Hnot m eq_refl). }
  split; [done|].
  intros k. unfold bind at 1. rewrite Hstep. by destruct e.
Qed.

Lemma decode_non_string (v : pyval) :
  is_str v = false ->
  _decode_image ext v = inl (OtherError "object has no attribute 'startswith'").
Proof. by destruct v. Qed.

(** X5: an item of an image request that is not a string is not reported
    as bad input: _decode_image raises AttributeError on it, which is no
    ValueError, so the request is never answered with embeddings, and
    when the items before it were processed to the end the response is
    the 500 error, after one reclamation (a text request answers 400 for
    such an item). *)
Theorem non_string_image_item_is_500
    (pre post : list pyval) (v : pyval) (w : World) :
  is_str v = false ->
  (forall embs,
      fst (generate_embeddings_endpoint ext "image" (pre ++ v :: post) w)
      <> Ok200 embs) /\
  (forall s1,
      run_batches ext "image" (plan "image" pre) (init w) = (inr None, s1) ->
      generate_embeddings_endpoint ext "image" (pre ++ v :: post) w
      = (Err500 "Internal server error during embedding",
         snd (_clear_gpu_memory ext s1))).
Proof.
  intros Hv. pose proof (decode_non_string v Hv) as Hd.
  assert (Hrun : forall s1,
             run_batches ext "image" (plan "image" pre) (init w) = (inr None, s1) ->
             run_batches ext "image" (plan "image" (pre ++ v :: post)) (init w)
             = (inl (OtherError "object has no attribute 'startswith'"), s1)).
  { intros s1 H1. rewrite plan_image_app, run_batches_app, H1.
    simpl. unfold bind.
    by rewrite (process_image_batch_decode_failure ext _ _ _ Hd). }
  assert (Hne : exists x xs, pre ++ v :: post = x :: xs).
  { destruct pre; simpl; eauto. }
  destruct Hne as (x & xs & Hne).
  unfold generate_embeddings_endpoint. rewrite Hne, <- Hne.
  split.
  - intros embs. apply respond_not_ok. intros s2 H2.
    rewrite plan_image_app, run_batches_app in H2.
    destruct (run_batches ext "image" (plan "image" pre) (init w))
      as [[e|[r|]] s1] eqn:H1; [done|done|].
    simpl in H2. unfold bind in H2.
    by rewrite (process_image_batch_decode_failure ext _ _ _ Hd) in H2.
  - intros s1 H1. by rewrite (Hrun s1 H1).
Qed.
End NotRecovered.

Lemma model_error_not_retried_witness :
  let a := PyStr "a" in
  let b := PyStr "b" in
  let s := Scripted.processed [a; b] [Some (ValueError "bad shape")] in
  let s1 := Scripted.failed [a; b] (ValueError "bad shape") [] in
  truthy Scripted.ext [a; b] = true /\
  call_model Scripted.ext [a; b] s = (inl (ValueError "bad shape"), s1) /\
  (forall msg, ValueError "bad shape" = RuntimeError msg ->
               is_oom_msg msg = false) /\
  infer_batch Scripted.ext "text" [a; b] [a; b] s
  = (inl (ValueError "bad shape"), s1) /\
  forall k : unit -> M _ (option (response Scripted.Embedding)),
    respond Scripted.ext (bind (infer_batch Scripted.ext "text" [a; b] [a; b]) k s)
    = (Err400 ("Input processing error: " +:+ "bad shape"), s1).
Proof.
  intros a b s s1.
  assert (Hnot : forall msg, ValueError "bad shape" = RuntimeError msg ->
                             is_oom_msg msg = false) by done.
  split; [reflexivity|]. split; [reflexivity|]. split; [exact Hnot|].
  exact (model_error_not_retried Scripted.ext "text" [a; b] [a; b] s s1
           (ValueError "bad shape") eq_refl eq_refl Hnot).
Defined.

Lemma non_string_image_item_is_500_witness :
  let good := PyStr "aGk=" in
  is_str (PyInt 7) = false /\
  (forall embs,
      fst (generate_embeddings_endpoint Scripted.ext "image"
             ([good] ++ PyInt 7 :: [good]) []) <> Ok200 embs) /\
  (forall s1,
      run_batches Scripted.ext "image" (plan "image" [good]) (init [])
      = (inr None, s1) ->
      generate_embeddings_endpoint Scripted.ext "image"
        ([good] ++ PyInt 7 :: [good]) []
      = (Err500 "Internal server error during embedding",
         snd (_clear_gpu_memory Scripted.ext s1))).
Proof.
  intros good. split; [reflexivity|].
  apply (non_string_image_item_is_500 Scripted.ext [good] [good] (PyInt 7) []).
  reflexivity.
Defined.

(* --------------------------------------------------------------------- *)
(* What is sent to the processor                                         *)
(* --------------------------------------------------------------------- *)

Lemma list_comprehension_length {A B} (f : A -> exn + B) (xs : list A)
    (ys : list B) :
  list_comprehension f xs = inr ys -> length ys = length xs.
Proof.
  revert ys. induction xs as [|x xs IH]; intros ys; simpl.
  - by intros [= <-].
  - destruct (f x) as [e|y]; [done|].
    destruct (list_comprehension f xs) as [e|ys']; [done|].
    intros [= <-]. simpl. by rewrite (IH ys').
Qed.

Section LogInvariant.
Context {World Image Processed Embedding : Type}.
Variable ext : externals World Image Processed Embedding.

(* A property of the calls that the reclamations, the model calls and
   the processor calls on one item have. *)
Variable P : event Image Processed Embedding -> Prop.
Hypothesis P_reclaim : P EvReclaim.
Hypothesis P_model : forall p r, P (EvModel p r).
Hypothesis P_query : forall x, P (EvProcessQueries [x]).
Hypothesis P_image : forall img, P (EvProcessImages [img]).

Implicit Types s : state World Image Processed Embedding.

Lemma infer_single_calls it x s r s1 :
  infer_single ext it x s = (r, s1) ->
  exists l, log s1 = log s ++ l /\ Forall P l.
Proof.
  unfold infer_single, bind, lift.
  destruct (String.eqb it "image").
  - destruct (_decode_image ext x) as [e|img].
    + intros [= <- <-]. exists []. by rewrite app_nil_r.
    + destruct (call_process_images ext [img] s) as [[e|p] s2] eqn:Hp;
        apply call_process_images_inv in Hp as (_ & Hl & _).
      * intros [= <- <-]. exists [EvProcessImages [img]]. auto.
      * intros Hm. apply call_model_inv in Hm as (_ & Hl' & _).
        exists [EvProcessImages [img]; EvModel p r].
        rewrite Hl', Hl, <- app_assoc. auto.
  - destruct (call_process_queries ext [x] s) as [[e|p] s2] eqn:Hp;
      apply call_process_queries_inv in Hp as (_ & Hl & _).
    + intros [= <- <-]. exists [EvProcessQueries [x]]. auto.
    + intros Hm. apply call_model_inv in Hm as (_ & Hl' & _).
      exists [EvProcessQueries [x]; EvModel p r].
      rewrite Hl', Hl, <- app_assoc. auto.
Qed.

Lemma fallback_calls it batch s r s' :
  fallback ext it batch s = (r, s') ->
  exists l, log s' = log s ++ l /\ Forall P l.
Proof.
  revert s. induction batch as [|x batch IH]; intros s; simpl.
  - intros [= <- <-]. exists []. by rewrite app_nil_r.
  - unfold bind.
    destruct (fallback_item ext it x s) as [r1 s1] eqn:H1.
    assert (Hitem : exists l, log s1 = log s ++ l /\ Forall P l).
    { destruct (infer_single ext it x s) as [[e|vs] s0] eqn:Hi;
        destruct (infer_single_calls _ _ _ _ _ Hi) as (l & Hl & HP).
      - rewrite (fallback_item_fail ext _ _ _ _ _ Hi) in H1.
        injection H1 as _ <-. eauto.
      - rewrite (fallback_item_ok ext _ _ _ _ _ Hi) in H1.
        injection H1 as _ <-. exists (l ++ [EvReclaim]). simpl.
        rewrite Hl, <- app_assoc. split; [done|].
        apply Forall_app. auto. }
    destruct Hitem as (l1 & Hl1 & HP1).
    destruct r1 as [e|[]].
    + intros [= <- <-]. eauto.
    + intros Hrest. apply IH in Hrest as (l2 & Hl2 & HP2).
      exists (l1 ++ l2). rewrite Hl2, Hl1, <- app_assoc.
      split; [done|]. by apply Forall_app.
Qed.

Lemma infer_batch_calls it b p s r s' :
  infer_batch ext it b p s = (r, s') ->
  exists l, log s' = log s ++ l /\ Forall P l.
Proof.
  unfold infer_batch. destruct (truthy ext p).
  - unfold try_except, bind.
    destruct (call_model ext p s) as [[e|vs] s1] eqn:Hm;
      apply call_model_inv in Hm as (_ & Hl & _).
    + assert (Hraise : forall e', (@raise _ unit e') s1 = (r, s') ->
                exists l, log s' = log s ++ l /\ Forall P l).
      { intros e' [= <- <-]. exists [EvModel p (inl e)]. auto. }
      unfold on_batch_error.
      destruct e as [m|m|m]; [apply Hraise| |apply Hraise].
      destruct (is_oom_msg m); [|apply Hraise].
      unfold bind. simpl.
      destruct (Nat.ltb 1 (length b)).
      * intros Hf. apply fallback_calls in Hf as (l2 & Hl2 & HP2).
        exists (EvModel p (inl (RuntimeError m)) :: EvReclaim :: l2).
        simpl in Hl2. rewrite Hl2, Hl, <- !app_assoc. auto.
      * intros [= <- <-]. exists [EvModel p (inl (RuntimeError m)); EvReclaim].
        simpl. rewrite Hl, <- app_assoc. auto.
    + simpl. intros [= <- <-]. exists [EvModel p (inr vs); EvReclaim].
      simpl. rewrite Hl, <- app_assoc. auto.
  - intros [= <- <-]. exists []. by rewrite app_nil_r.
Qed.

(* The processor calls on a whole batch have the property too. *)
Lemma process_batch_calls it b s r s' :
  (P (EvProcessQueries b) /\
   forall imgs, length imgs = length b -> P (EvProcessImages imgs)) ->
  process_batch ext it b s = (r, s') ->
  exists l, log s' = log s ++ l /\ Forall P l.
Proof.
  intros [Pq Pi].
  assert (Hsame : forall r0 : exn + option (response Embedding),
             (r0, s) = (r, s') ->
             exists l, log s' = log s ++ l /\ Forall P l).
  { intros r0 [= <- <-]. exists []. by rewrite app_nil_r. }
  unfold process_batch, bind, lift, ret.
  destruct (String.eqb it "image").
  - destruct (list_comprehension (_decode_image ext) b) as [e|imgs] eqn:Hd;
      [apply Hsame|].
    apply list_comprehension_length in Hd.
    destruct imgs as [|img imgs]; [apply Hsame|].
    destruct (call_process_images ext (img :: imgs) s) as [[e|p] s2] eqn:Hp;
      apply call_process_images_inv in Hp as (_ & Hl & _).
    + intros [= <- <-]. exists [EvProcessImages (img :: imgs)]. auto.
    + destruct (infer_batch ext it b p s2) as [r2 s3] eqn:Hi.
      apply infer_batch_calls in Hi as (l & Hl3 & HP3).
      intros Heq.
      assert (Hend : s3 = s') by (destruct r2 as [e|[]]; congruence).
      subst s3. exists (EvProcessImages (img :: imgs) :: l).
      rewrite Hl3, Hl, <- app_assoc. auto.
  - destruct (String.eqb it "text"); [|apply Hsame].
    destruct (forallb is_str b); [|apply Hsame].
    destruct (call_process_queries ext b s) as [[e|p] s2] eqn:Hp;
      apply call_process_queries_inv in Hp as (_ & Hl & _).
    + intros [= <- <-]. exists [EvProcessQueries b]. auto.
    + destruct (infer_batch ext it b p s2) as [r2 s3] eqn:Hi.
      apply infer_batch_calls in Hi as (l & Hl3 & HP3).
      intros Heq.
      assert (Hend : s3 = s') by (destruct r2 as [e|[]]; congruence).
      subst s3. exists (EvProcessQueries b :: l).
      rewrite Hl3, Hl, <- app_assoc. auto.
Qed.

Lemma run_batches_calls it bs s r s' :
  Forall (fun b => P (EvProcessQueries b) /\
                   forall imgs, length imgs = length b ->
                                P (EvProcessImages imgs)) bs ->
  run_batches ext it bs s = (r, s') ->
  exists l, log s' = log s ++ l /\ Forall P l.
Proof.
  intros Hbs. revert s. induction Hbs as [|b bs Hb Hbs IH]; intros s; simpl.
  - intros [= <- <-]. exists []. by rewrite app_nil_r.
  - unfold bind.
    destruct (process_batch ext it b s) as [r1 s1] eqn:H1.
    apply (process_batch_calls _ _ _ _ _ Hb) in H1 as (l1 & Hl1 & HP1).
    destruct r1 as [e|[resp|]].
    + intros [= <- <-]. eauto.
    + intros [= <- <-]. eauto.
    + intros Hrest. apply IH in Hrest as (l2 & Hl2 & HP2).
      exists (l1 ++ l2). rewrite Hl2, Hl1, <- app_assoc.
      split; [done|]. by apply Forall_app.
Qed.

Lemma endpoint_calls it inputs w :
  Forall (fun b => P (EvProcessQueries b) /\
                   forall imgs, length imgs = length b ->
                                P (EvProcessImages imgs))
    (plan it inputs) ->
  Forall P (log (snd (generate_embeddings_endpoint ext it inputs w))).
Proof.
  intros Hplan. unfold generate_embeddings_endpoint.
  destruct inputs as [|x xs]; [constructor|].
  destruct (run_batches ext it (plan it (x :: xs)) (init w))
    as [r s1] eqn:Hr.
  apply (run_batches_calls _ _ _ _ _ Hplan) in Hr as (l & Hl & HP).
  simpl in Hl. subst l.
  destruct r as [[m|m|m]|[resp|]]; simpl; try done;
    apply Forall_app; auto.
Qed.
End LogInvariant.

Section BatchBound.
Context {World Image Processed Embedding : Type}.
Variable ext : externals World Image Processed Embedding.

(** X6: whatever the request and whatever the device does, no call of the
    processor carries more items than the batch size of the input type,
    and none is empty: at most 4 texts go to process_queries at once and
    exactly 1 image goes to process_images, in the batches of the plan
    and in the item-by-item pass alike. *)
Theorem processor_calls_within_batch_size
    (input_type : string) (inputs : list pyval) (w : World) :
  Forall
    (fun ev : event Image Processed Embedding =>
       match ev with
       | EvProcessQueries qs => 1 <= length qs <= batch_size input_type
       | EvProcessImages imgs => 1 <= length imgs <= batch_size input_type
       | _ => True
       end)
    (log (snd (generate_embeddings_endpoint ext input_type inputs w))).
Proof.
  pose proof (batch_size_pos input_type) as Hpos.
  apply endpoint_calls; try done; simpl; try lia.
  pose proof (batches_sizes (batch_size input_type) inputs Hpos) as Hsizes.
  unfold plan. eapply Forall_impl; [exact Hsizes|].
  intros b Hb. split; [done|]. intros imgs Hlen. by rewrite Hlen.
Qed.
End BatchBound.

(* --------------------------------------------------------------------- *)
(* Reclamations of a request that succeeds                               *)
(* --------------------------------------------------------------------- *)

Section ReclaimCount.
Context {World Image Processed Embedding : Type}.
Variable ext : externals World Image Processed Embedding.
Hypothesis Htruthy : truthy_batches ext.

Implicit Types s : state World Image Processed Embedding.
Implicit Types l : list (event Image Processed Embedding).

Lemma reclaims_app l1 l2 :
  length (List.filter is_reclaim (l1 ++ l2)) =
  length (List.filter is_reclaim l1) + length (List.filter is_reclaim l2).
Proof. by rewrite List.filter_app, length_app. Qed.

(* A batch that was sent to the model and ended normally has reclaimed
   memory at least once. *)
Lemma infer_batch_reclaims it b p s s' :
  truthy ext p = true ->
  infer_batch ext it b p s = (inr tt, s') ->
  length (List.filter is_reclaim (log s)) <
  length (List.filter is_reclaim (log s')).
Proof.
  intros Ht. unfold infer_batch. rewrite Ht.
  unfold try_except, bind.
  destruct (call_model ext p s) as [[e|vs] s1] eqn:Hm;
    apply call_model_inv in Hm as (_ & Hl & _).
  - unfold on_batch_error.
    destruct e as [m|m|m]; [done| |done].
    destruct (is_oom_msg m); [|done].
    unfold bind. simpl.
    destruct (Nat.ltb 1 (length b)); [|done].
    intros Hf.
    destruct (fallback_inv ext it b
                (emit EvReclaim (empty_cache_gc ext (world s1)) s1))
      as (s2 & l2 & Hf' & Hl2 & _).
    rewrite Hf' in Hf. injection Hf as <-.
    simpl in Hl2. rewrite Hl2, Hl, !reclaims_app. simpl. lia.
  - simpl. intros [= <-]. simpl. rewrite Hl, !reclaims_app. simpl. lia.
Qed.

Lemma process_batch_reclaims it b s s' :
  b <> [] ->
  process_batch ext it b s = (inr None, s') ->
  length (List.filter is_reclaim (log s)) <
  length (List.filter is_reclaim (log s')).
Proof.
  intros Hne. destruct Htruthy as [Himg Hqry].
  unfold process_batch, bind, lift, ret.
  destruct (String.eqb it "image").
  - destruct (list_comprehension (_decode_image ext) b) as [e|imgs] eqn:Hd;
      [done|].
    apply list_comprehension_length in Hd.
    destruct imgs as [|img imgs]; [by destruct b|].
    destruct (call_process_images ext (img :: imgs) s) as [[e|p] s2] eqn:Hp;
      [done|].
    apply call_process_images_inv in Hp as (_ & Hl & Hp).
    destruct (infer_batch ext it b p s2) as [[e|[]] s3] eqn:Hi; [done|].
    intros [= <-].
    apply infer_batch_reclaims in Hi;
      [|exact (Himg (img :: imgs) _ _ _ ltac:(done) Hp)].
    rewrite Hl, reclaims_app in Hi. simpl in Hi. lia.
  - destruct (String.eqb it "text"); [|done].
    destruct (forallb is_str b); [|done].
    destruct (call_process_queries ext b s) as [[e|p] s2] eqn:Hp; [done|].
    apply call_process_queries_inv in Hp as (_ & Hl & Hp).
    destruct (infer_batch ext it b p s2) as [[e|[]] s3] eqn:Hi; [done|].
    intros [= <-].
    apply infer_batch_reclaims in Hi; [|exact (Hqry b _ _ _ Hne Hp)].
    rewrite Hl, reclaims_app in Hi. simpl in Hi. lia.
Qed.

Lemma run_batches_reclaims it bs s s' :
  Forall (fun b => b <> []) bs ->
  run_batches ext it bs s = (inr None, s') ->
  length (List.filter is_reclaim (log s)) + length bs <=
  length (List.filter is_reclaim (log s')).
Proof.
  intros Hbs. revert s. induction Hbs as [|b bs Hb Hbs IH]; intros s; simpl.
  - intros [= <-]. lia.
  - unfold bind.
    destruct (process_batch ext it b s) as [[e|[r|]] s1] eqn:H1;
      [done|done|].
    intros Hrest. apply IH in Hrest.
    apply (process_batch_reclaims _ _ _ _ Hb) in H1. lia.
Qed.

(** X7: when what the processor returns is true in `if processed_batch:`,
    a request with at least one input that is answered with embeddings
    has reclaimed memory at least once per planned batch and once more
    before the response. *)
Theorem success_reclaims_once_per_batch
    (input_type : string) (inputs : list pyval) (w : World)
    (embs : list Embedding) :
  inputs <> [] ->
  fst (generate_embeddings_endpoint ext input_type inputs w) = Ok200 embs ->
  length (plan input_type inputs) <
  length (List.filter is_reclaim
            (log (snd (generate_embeddings_endpoint ext input_type inputs w)))).
Proof.
  intros Hne. unfold generate_embeddings_endpoint.
  destruct inputs as [|x xs]; [done|].
  destruct (run_batches ext input_type (plan input_type (x :: xs)) (init w))
    as [[e|[r|]] s1] eqn:Hr.
  - by destruct e.
  - apply run_batches_some in Hr as [m ->]. done.
  - intros _. simpl.
    apply run_batches_reclaims in Hr.
    + rewrite reclaims_app. simpl in *. lia.
    + unfold plan.
      eapply Forall_impl;
        [exact (batches_sizes _ _ (batch_size_pos input_type))|].
      intros b Hb ->. simpl in Hb. lia.
Qed.
End ReclaimCount.

Lemma scripted_truthy_batches : truthy_batches Scripted.ext.
Proof.
  split.
  - intros imgs w p w' Hne [= <- _]. by destruct imgs.
  - intros qs w p w' Hne [= <- _]. by destruct qs.
Qed.

Lemma success_reclaims_once_per_batch_witness :
  let inputs := [PyStr "a"; PyStr "b"; PyStr "c"; PyStr "d"; PyStr "e"] in
  let w := [Some Scripted.oom; None; Some Scripted.boom] in
  truthy_batches Scripted.ext /\
  inputs <> [] /\
  fst (generate_embeddings_endpoint Scripted.ext "text" inputs w)
  = Ok200 [PyStr "a"; PyStr "c"; PyStr "d"; PyStr "e"] /\
  length (plan "text" inputs) <
  length (List.filter is_reclaim
            (log (snd (generate_embeddings_endpoint Scripted.ext "text"
                         inputs w)))).
Proof.
  intros inputs w.
  assert (Hne : inputs <> []) by done.
  split; [exact scripted_truthy_batches|]. split; [exact Hne|].
  split; [reflexivity|].
  apply (success_reclaims_once_per_batch Scripted.ext scripted_truthy_batches
           "text" inputs w [PyStr "a"; PyStr "c"; PyStr "d"; PyStr "e"] Hne).
  reflexivity.
Defined.

(* --------------------------------------------------------------------- *)
(* Complete results                                                      *)
(* --------------------------------------------------------------------- *)

Section ImageComplete.
Context {World Image Processed Embedding : Type}.
Variable ext : externals World Image Processed Embedding.
Variable emb : pyval -> Embedding.
Hypothesis Hpointwise : pointwise ext "image" emb.
Hypothesis Htruthy : truthy_batches ext.

Implicit Types s : state World Image Processed Embedding.

(* An image batch has one item and no fallback: it ends normally only
   with the embedding of its item. *)
Lemma process_image_batch_complete x s s' :
  process_batch ext "image" [x] s = (inr None, s') ->
  acc s' = acc s ++ [emb x].
Proof.
  pose proof Hpointwise as Hpw. unfold pointwise in Hpw. simpl in Hpw.
  destruct Htruthy as [Himg _].
  unfold process_batch, bind, lift, ret. rewrite String.eqb_refl.
  destruct (list_comprehension (_decode_image ext) [x]) as [e|imgs] eqn:Hd;
    [done|].
  pose proof (list_comprehension_length _ _ _ Hd) as Hlen.
  destruct imgs as [|img imgs]; [done|].
  destruct (call_process_images ext (img :: imgs) s) as [[e|p] s2] eqn:Hp;
    [done|].
  apply call_process_images_inv in Hp as (Ha & _ & Hp).
  pose proof (Himg (img :: imgs) _ _ _ ltac:(done) Hp) as Ht.
  unfold infer_batch. rewrite Ht. unfold try_except, bind.
  destruct (call_model ext p s2) as [[e|vs] s3] eqn:Hm;
    apply call_model_inv in Hm as (Ha3 & _ & Hm).
  - unfold on_batch_error. destruct e as [m|m|m]; [done| |done].
    destruct (is_oom_msg m); done.
  - simpl. intros [= <-]. simpl.
    rewrite (Hpw [x] _ _ _ _ _ _ Hd Hp Hm), Ha3, Ha. done.
Qed.

Lemma run_image_batches_complete xs s s' :
  run_batches ext "image" (map (fun x => [x]) xs) s = (inr None, s') ->
  acc s' = acc s ++ map emb xs.
Proof.
  revert s. induction xs as [|x xs IH]; intros s; simpl.
  - intros [= <-]. by rewrite app_nil_r.
  - unfold bind.
    destruct (process_batch ext "image" [x] s) as [[e|[r|]] s1] eqn:H1;
      [done|done|].
    intros Hrest. apply IH in Hrest.
    apply process_image_batch_complete in H1.
    by rewrite Hrest, H1, <- app_assoc.
Qed.

(** X8: an image request is all or nothing.  When the processor and the
    model return one embedding per image and the processed batch is true
    in `if processed_batch:`, an image request that is answered with
    embeddings is answered with the embedding of every input, in order:
    image batches hold one item, so nothing is recovered item by item and
    no image is dropped. *)
Theorem image_success_is_complete
    (inputs : list pyval) (w : World) (embs : list Embedding) :
  fst (generate_embeddings_endpoint ext "image" inputs w) = Ok200 embs ->
  embs = map emb inputs.
Proof.
  unfold generate_embeddings_endpoint.
  destruct inputs as [|x xs]; [by intros [= <-]|].
  destruct (run_batches ext "image" (plan "image" (x :: xs)) (init w))
    as [[e|[r|]] s1] eqn:Hr.
  - by destruct e.
  - apply run_batches_some in Hr as [m ->]. done.
  - simpl. intros [= <-].
    unfold plan in Hr. change (batch_size "image") with 1 in Hr.
    rewrite batches_one in Hr.
    by apply run_image_batches_complete in Hr.
Qed.
End ImageComplete.

Lemma image_success_is_complete_witness :
  let inputs := [PyStr "data:image/png;base64,aGk="; PyStr "eW8="] in
  pointwise Scripted.ext "image" Scripted.emb_image /\
  truthy_batches Scripted.ext /\
  fst (generate_embeddings_endpoint Scripted.ext "image" inputs [])
  = Ok200 [PyStr "aGk="; PyStr "eW8="] /\
  [PyStr "aGk="; PyStr "eW8="] = map Scripted.emb_image inputs.
Proof.
  intros inputs.
  split; [exact scripted_pointwise_image|].
  split; [exact scripted_truthy_batches|].
  split; [reflexivity|].
  apply (image_success_is_complete Scripted.ext Scripted.emb_image
           scripted_pointwise_image scripted_truthy_batches inputs []).
  reflexivity.
Defined.

Lemma forallb_concat {A} (f : A -> bool) (bs : list (list A)) :
  forallb f (concat bs) = true ->
  Forall (fun b => forallb f b = true) bs.
Proof.
  induction bs as [|b bs IH]; simpl; [constructor|].
  rewrite forallb_app, andb_true_iff. intros [Hb Hrest].
  constructor; auto.
Qed.

Section TextComplete.
Context {World Image Processed Embedding : Type}.
Variable ext : externals World Image Processed Embedding.
Variable emb : pyval -> Embedding.
Hypothesis Hpointwise : pointwise ext "text" emb.
Hypothesis Hhealthy : healthy_text ext.

Implicit Types s : state World Image Processed Embedding.

Lemma process_text_batch_healthy b s :
  forallb is_str b = true ->
  exists s',
    process_batch ext "text" b s = (inr None, s') /\
    acc s' = acc s ++ map emb b.
Proof.
  intros Hstr.
  pose proof Hpointwise as Hpw. unfold pointwise in Hpw. simpl in Hpw.
  destruct (Hhealthy b (world s)) as (p & w' & Hp & Ht & vs & w'' & Hm).
  unfold process_batch, bind, ret.
  change (String.eqb "text" "image") with false. rewrite String.eqb_refl.
  rewrite Hstr. unfold call_process_queries at 1. rewrite Hp.
  unfold infer_batch. rewrite Ht. unfold try_except, bind.
  unfold call_model at 1. simpl world. rewrite Hm. simpl.
  eexists. split; [reflexivity|]. simpl.
  by rewrite (Hpw b _ _ _ _ _ Hp Hm).
Qed.

Lemma run_text_batches_healthy bs s :
  Forall (fun b => forallb is_str b = true) bs ->
  exists s',
    run_batches ext "text" bs s = (inr None, s') /\
    acc s' = acc s ++ map emb (concat bs).
Proof.
  intros Hbs. revert s. induction Hbs as [|b bs Hb Hbs IH]; intros s; simpl.
  - exists s. by rewrite app_nil_r.
  - destruct (process_text_batch_healthy b s Hb) as (s1 & H1 & Ha1).
    destruct (IH s1) as (s2 & H2 & Ha2).
    exists s2. unfold bind. rewrite H1, H2.
    by rewrite Ha2, Ha1, map_app, app_assoc.
Qed.

(** X9: on a device whose processor and model calls succeed and return
    one embedding per item, a text request of strings is answered with
    exactly one embedding per input, in the order of the inputs. *)
Theorem healthy_text_request_is_complete
    (inputs : list pyval) (w : World) :
  forallb is_str inputs = true ->
  fst (generate_embeddings_endpoint ext "text" inputs w)
  = Ok200 (map emb inputs).
Proof.
  intros Hstr. unfold generate_embeddings_endpoint.
  destruct inputs as [|x xs]; [done|].
  assert (Hplan : Forall (fun b => forallb is_str b = true)
                    (plan "text" (x :: xs))).
  { apply forallb_concat. unfold plan.
    by rewrite (batches_concat _ _ (batch_size_pos "text")). }
  destruct (run_text_batches_healthy _ (init w) Hplan) as (s' & Hr & Ha).
  rewrite Hr. simpl. simpl in Ha. rewrite Ha. unfold plan.
  by rewrite (batches_concat _ _ (batch_size_pos "text")).
Qed.
End TextComplete.

Lemma healthy_pointwise_text : pointwise Healthy.ext "text" (fun v => v).
Proof.
  unfold pointwise. simpl. intros items w p w' r w'' [= <- <-] [= <- _].
  by rewrite map_id.
Qed.

Lemma healthy_is_healthy_text : healthy_text Healthy.ext.
Proof.
  intros qs w. exists qs, w. split; [done|]. split; [done|].
  by exists qs, (S w).
Qed.

Lemma healthy_text_request_is_complete_witness :
  let inputs := map PyStr ["a"; "b"; "c"; "d"; "e"; "f"] in
  pointwise Healthy.ext "text" (fun v => v) /\
  healthy_text Healthy.ext /\
  forallb is_str inputs = true /\
  fst (generate_embeddings_endpoint Healthy.ext "text" inputs 0)
  = Ok200 (map (fun v => v) inputs).
Proof.
  intros inputs.
  split; [exact healthy_pointwise_text|].
  split; [exact healthy_is_healthy_text|].
  split; [reflexivity|].
  apply (healthy_text_request_is_complete Healthy.ext (fun v => v)
           healthy_pointwise_text healthy_is_healthy_text inputs 0).
  reflexivity.
Defined.

(* --------------------------------------------------------------------- *)
(* scripts/generate-secrets.py                                           *)
(* --------------------------------------------------------------------- *)

Lemma all_chars_cons (f : ascii -> bool) (c : ascii) (s : string) :
  all_chars f (String c s) = f c && all_chars f s.
Proof. reflexivity. Qed.

Lemma alphabet_get (i : nat) :
  i < 62 ->
  exists c, String.get i (ascii_letters +:+ digits) = Some c /\
            is_alnum c = true.
Proof.
  intros Hi.
  do 62 (destruct i as [|i]; [eexists; split; reflexivity|]).
  lia.
Qed.



Section SecretsFacts.
Context {Rng : Type}.
Variable randbelow : nat -> Rng -> nat * Rng.
Variable urandom : nat -> Rng -> list Byte.byte * Rng.

Lemma choice_alphabet (g : Rng) :
  (forall n g, 0 < n -> fst (randbelow n g) < n) ->
  exists c g',
    choice randbelow (ascii_letters +:+ digits) g = (inr c, g') /\
    is_alnum c = true.
Proof.
  intros Hbelow. unfold choice.
  change (String.length (ascii_letters +:+ digits)) with 62.
  cbv iota. pose proof (Hbelow 62 g ltac:(lia)) as Hi.
  destruct (randbelow 62 g) as [i g']. simpl in Hi.
  destruct (alphabet_get i Hi) as (c & Hc & Hal).
  exists c, g'. by rewrite Hc.
Qed.

(** X10: with a random source that keeps its bound, generate_secret
    returns a string of exactly `length` characters (none for a length
    of zero or less), each of them an ASCII letter or digit; it never
    raises. *)
Theorem generate_secret_alphanumeric (length : Z) (g : Rng) :
  (forall n g, 0 < n -> fst (randbelow n g) < n) ->
  exists secret g',
    generate_secret randbelow length g = (inr secret, g') /\
    String.length secret = Z.to_nat length /\
    all_chars is_alnum secret = true.
Proof.
  intros Hbelow. unfold generate_secret.
  generalize (Z.to_nat length) as n. intros n. revert g.
  induction n as [|n IH]; intros g.
  - by exists "", g.
  - destruct (choice_alphabet g Hbelow) as (c & g1 & Hc & Hal).
    destruct (IH g1) as (rest & g2 & Hr & Hlen & Hall).
    exists (String c rest), g2. simpl. unfold bind, ret.
    rewrite Hc, Hr. split; [done|]. split; [by rewrite <- Hlen|].
    by rewrite all_chars_cons, Hal, Hall.
Qed.

End SecretsFacts.

Lemma counter_randbelow_lt (n g : nat) :
  0 < n -> fst (Counter.randbelow n g) < n.
Proof. intros Hn. simpl. apply Nat.mod_upper_bound. lia. Qed.


Lemma generate_secret_alphanumeric_witness :
  (forall n g, 0 < n -> fst (Counter.randbelow n g) < n) /\
  exists secret g',
    generate_secret Counter.randbelow 64 60 = (inr secret, g') /\
    String.length secret = Z.to_nat 64 /\
    all_chars is_alnum secret = true.
Proof.
  split; [exact counter_randbelow_lt|].
  exact (generate_secret_alphanumeric Counter.randbelow 64 60
           counter_randbelow_lt).
Defined.


(* --------------------------------------------------------------------- *)
(* Size of the result                                                    *)
(* --------------------------------------------------------------------- *)

Lemma sublist_same_length {A} (l1 l2 : list A) :
  l1 `sublist_of` l2 -> length l1 = length l2 -> l1 = l2.
Proof.
  induction 1 as [|y l1 l2 Hsub IH|y l1 l2 Hsub IH]; simpl; intros Hlen.
  - done.
  - f_equal. apply IH. lia.
  - apply sublist_length in Hsub. lia.
Qed.

Section ResultSize.
Context {World Image Processed Embedding : Type}.
Variable ext : externals World Image Processed Embedding.

(** X12: when the processor and the model return one embedding per item,
    a success response never holds more embeddings than the request has
    inputs, and a response that holds as many embeddings as the request
    has inputs holds the embedding of every input, in order: a shorter
    response is the only sign that items were dropped. *)
Theorem success_never_longer_than_inputs
    (input_type : string) (emb : pyval -> Embedding)
    (inputs : list pyval) (w : World) (embs : list Embedding) :
  pointwise ext input_type emb ->
  fst (generate_embeddings_endpoint ext input_type inputs w) = Ok200 embs ->
  length embs <= length inputs /\
  (length embs = length inputs -> embs = map emb inputs).
Proof.
  intros Hpw. unfold generate_embeddings_endpoint.
  destruct inputs as [|x xs]; [by intros [= <-]|].
  destruct (run_batches ext input_type (plan input_type (x :: xs)) (init w))
    as [[e|[r|]] s1] eqn:Hr.
  - by destruct e.
  - apply run_batches_some in Hr as [m ->]. done.
  - simpl. intros [= <-].
    apply (run_batches_kept ext input_type emb Hpw) in Hr
      as (kept & Hk & Hacc).
    unfold plan in Hk.
    rewrite (batches_concat _ _ (batch_size_pos input_type)) in Hk.
    simpl in Hacc. rewrite Hacc, length_map.
    split; [exact (sublist_length _ _ Hk)|].
    intros Hlen. by rewrite (sublist_same_length _ _ Hk Hlen).
Qed.
End ResultSize.

Lemma success_never_longer_than_inputs_witness :
  let inputs := [PyStr "x"; PyStr "y"; PyStr "z"] in
  let w := [Some Scripted.oom; None; Some Scripted.oom; None] in
  pointwise Scripted.ext "text" (fun v => v) /\
  fst (generate_embeddings_endpoint Scripted.ext "text" inputs w)
  = Ok200 [PyStr "x"; PyStr "z"] /\
  length [PyStr "x"; PyStr "z"] <= length inputs /\
  (length [PyStr "x"; PyStr "z"] = length inputs ->
   [PyStr "x"; PyStr "z"] = map (fun v => v) inputs).
Proof.
  intros inputs w.
  split; [exact scripted_pointwise_text|]. split; [reflexivity|].
  apply (success_never_longer_than_inputs Scripted.ext "text" (fun v => v)
           inputs w [PyStr "x"; PyStr "z"] scripted_pointwise_text).
  reflexivity.
Defined.
